(** * llama_perf: a Rocq model of the MLX Llama inference script

    The development follows [llama_perf.py]:
    - [Py]        the Python exceptions the script can raise, as an error monad;
    - [Loader]    [sanitize_config], on dictionaries ([gmap string _]);
    - [LoadModel] the way of [load_model] from the config to [ModelArgs];
    - [Shapes]    the tensor shapes computed by [Attention], [TransformerBlock]
                  and [Llama.generate], one shape rule per [mx] operation;
    - [Forward]   the values computed by the forward pass, over an abstract
                  numeric backend, and the generator [Llama.generate];
    - [Recompute] generation by full forward passes, to compare with;
    - [Driver]    the command-line driver [generate] and the statistics block. *)

From Stdlib Require Import ZArith QArith Qround String Ascii List Lia.
From stdpp Require Import gmap strings pretty list fin_maps.

#[local] Set Warnings "-register-all".

Local Open Scope string_scope.
Local Open Scope list_scope.
Local Open Scope Z_scope.

(** ** Python exceptions as an error monad *)

Module Py.

Inductive exn : Type :=
| KeyError (key : string)
| IndexError
| ZeroDivisionError
| TypeError
| ValueError
| OverflowError
| NotImplementedError
| StopIteration.

Inductive result (A : Type) : Type :=
| Ok (a : A)
| Raise (e : exn).
Arguments Ok {A} a.
Arguments Raise {A} e.

Definition bind {A B} (m : result A) (k : A -> result B) : result B :=
  match m with
  | Ok a => k a
  | Raise e => Raise e
  end.

Definition is_ok {A} (m : result A) : bool :=
  match m with Ok _ => true | Raise _ => false end.

End Py.
Export Py.

(** [result] is used through stdpp's monad notations [x ← m; k]. *)
#[export] Instance result_ret : MRet result := fun A a => Ok a.
#[export] Instance result_bind : MBind result := fun A B k m => Py.bind m k.

(** ** The loader's [sanitize_config] *)

(** Python floats, as far as the loader computes with them: the value of a
    float is left open (it may be a rounded number, an infinity or a nan);
    what is fixed is which operation the script applies to it. *)
Class PyFloat (Fl : Type) := {
  (** [float(n)] for an integer [n], the conversion behind [n // x] and
      [x // n]: [OverflowError] when [n] is too large for a float *)
  float_of_int : Z -> result Fl;
  (** [x // y] on two floats: [ZeroDivisionError] when [y] is zero *)
  float_floordiv : Fl -> Fl -> result Fl;
  (** [x < 0] *)
  float_lt_zero : Fl -> bool
}.

Module Loader.
Section WithFloat.

Context {Fl : Type} `{PyFloat Fl}.

(** The values [json.loads] puts in the config dictionary; nested lists
    and objects are kept as data. *)
Inductive value : Type :=
| VNone
| VBool (b : bool)
| VInt (z : Z)
| VFloat (x : Fl)
| VStr (s : string)
| VList (l : list value)
| VDict (d : list (string * value)).

(** What the script reads of a loaded array: its [shape]. *)
Record array := { shape : list Z }.

(** [d[k]] on a dictionary. *)
Definition getitem {V} (d : gmap string V) (k : string) : result V :=
  match d !! k with
  | Some v => Ok v
  | None => Raise (KeyError k)
  end.

(** [k in d]. *)
Definition contains {V} (d : gmap string V) (k : string) : bool :=
  bool_decide (is_Some (d !! k)).

(** [d.get(k, default)]. *)
Definition get {V} (d : gmap string V) (k : string) (default : V) : V :=
  match d !! k with
  | Some v => v
  | None => default
  end.

(** [d.pop(k, None)], for its effect on [d]. *)
Definition pop {V} (d : gmap string V) (k : string) : gmap string V :=
  delete k d.

(** Python's view of a value as a number: [bool] is a subtype of [int]. *)
Inductive number : Type :=
| NInt (z : Z)
| NFloat (x : Fl).

Definition as_number (v : value) : option number :=
  match v with
  | VBool b => Some (NInt (if b then 1 else 0))
  | VInt z => Some (NInt z)
  | VFloat x => Some (NFloat x)
  | _ => None
  end.

(** [a // b]: floor division on two integers; as soon as one operand is a
    float the other is converted to a float first and the floats are
    divided. *)
Definition floordiv (a b : value) : result value :=
  match as_number a, as_number b with
  | Some (NInt x), Some (NInt y) =>
      if Z.eqb y 0 then Raise ZeroDivisionError else Ok (VInt (x / y))
  | Some (NInt x), Some (NFloat y) =>
      x ← float_of_int x; q ← float_floordiv x y; Ok (VFloat q)
  | Some (NFloat x), Some (NInt y) =>
      y ← float_of_int y; q ← float_floordiv x y; Ok (VFloat q)
  | Some (NFloat x), Some (NFloat y) =>
      q ← float_floordiv x y; Ok (VFloat q)
  | _, _ => Raise TypeError
  end.

(** [v < 0]. *)
Definition lt_zero (v : value) : result bool :=
  match as_number v with
  | Some (NInt x) => Ok (Z.ltb x 0)
  | Some (NFloat x) => Ok (float_lt_zero x)
  | None => Raise TypeError
  end.

(** [a.shape[i]], with Python's negative indices. *)
Definition shape_at (a : array) (i : Z) : result Z :=
  let n := Z.of_nat (length (shape a)) in
  let j := if Z.ltb i 0 then i + n else i in
  if Z.ltb j 0 then Raise IndexError
  else match shape a !! Z.to_nat j with
       | Some d => Ok d
       | None => Raise IndexError
       end.

Definition sanitize_config (config : gmap string value)
    (weights : gmap string array) : result (gmap string value) :=
  let config := pop config "model_type" in
  n_heads ← getitem config "n_heads";
  let config :=
    if contains config "n_kv_heads" then config
    else <["n_kv_heads" := n_heads]> config in
  config ←
    (if contains config "head_dim" then Ok config
     else dim ← getitem config "dim";
          d ← floordiv dim n_heads;
          Ok (<["head_dim" := d]> config));
  config ←
    (if contains config "hidden_dim" then Ok config
     else w ← getitem weights "layers.0.feed_forward.w1.weight";
          d ← shape_at w 0;
          Ok (<["hidden_dim" := VInt d]> config));
  neg ← lt_zero (get config "vocab_size" (VInt (-1)));
  config ←
    (if neg : bool
     then w ← getitem weights "output.weight";
          d ← shape_at w (-1);
          Ok (<["vocab_size" := VInt d]> config)
     else Ok config);
  let config :=
    if contains config "rope_theta" then config
    else <["rope_theta" := VInt 10000]> config in
  let unused := ["multiple_of"; "ffn_dim_multiplier"] in
  let config := foldl (fun c k => pop c k) config unused in
  Ok config.

End WithFloat.
End Loader.

(** A config in the style of the converted Llama-2 checkpoints, and the
    shapes of the two arrays [sanitize_config] looks at. *)
Module LoaderExample.
Import Loader.

(** Exact rationals in the place of floats, to run the examples. *)
#[export] Instance exact_float : PyFloat Q := {|
  float_of_int := fun z => Ok (inject_Z z);
  float_floordiv := fun x y =>
    if Qeq_bool y 0 then Raise ZeroDivisionError
    else Ok (inject_Z (Qfloor (x / y)));
  float_lt_zero := fun x => negb (Qle_bool 0 x)
|}.

Definition config : gmap string (@value Q) :=
  list_to_map
    [("model_type", VStr "llama"); ("dim", VInt 4096); ("n_layers", VInt 32);
     ("n_heads", VInt 32); ("n_kv_heads", VInt 8);
     ("norm_eps", VFloat (1 # 100000)); ("vocab_size", VInt (-1));
     ("multiple_of", VInt 256)]%string.

Definition weights : gmap string array :=
  list_to_map
    [("layers.0.feed_forward.w1.weight", {| shape := [11008; 4096] |});
     ("output.weight", {| shape := [32000; 4096] |})]%string.

Definition sanitized : gmap string (@value Q) :=
  list_to_map
    [("dim", VInt 4096); ("n_layers", VInt 32);
     ("n_heads", VInt 32); ("n_kv_heads", VInt 8);
     ("norm_eps", VFloat (1 # 100000)); ("vocab_size", VInt 4096);
     ("head_dim", VInt 128); ("hidden_dim", VInt 11008);
     ("rope_theta", VInt 10000)]%string.

End LoaderExample.

(** ** From the config to [ModelArgs], as [load_model] goes *)

Module LoadModel.
Section WithFloat.

Context {Fl : Type} `{PyFloat Fl}.
Import Loader.

Local Abbreviation value := (@value Fl).

(** The dataclass [ModelArgs]: its generated [__init__] stores what it is
    given; the annotations are not checked. *)
Record ModelArgs := {
  dim : value;
  n_layers : value;
  head_dim : value;
  hidden_dim : value;
  n_heads : value;
  n_kv_heads : value;
  norm_eps : value;
  vocab_size : value;
  rope_theta : value;
  rope_traditional : value
}.

(** The parameters of [ModelArgs.__init__]; the last one has a default. *)
Definition fields : list string :=
  ["dim"; "n_layers"; "head_dim"; "hidden_dim"; "n_heads"; "n_kv_heads";
   "norm_eps"; "vocab_size"; "rope_theta"; "rope_traditional"].

(** A keyword argument without a default. *)
Definition required (kwargs : gmap string value) (k : string)
    : result value :=
  match kwargs !! k with
  | Some v => Ok v
  | None => Raise TypeError
  end.

(** [ModelArgs] called with the entries of [kwargs] as keywords: a keyword
    that is no parameter, or a parameter without default that is not
    given, is a [TypeError]. *)
Definition ModelArgs_init (kwargs : gmap string value) : result ModelArgs :=
  if bool_decide (map_Forall (fun k _ => k ∈ fields) kwargs)
  then
    dim ← required kwargs "dim";
    n_layers ← required kwargs "n_layers";
    head_dim ← required kwargs "head_dim";
    hidden_dim ← required kwargs "hidden_dim";
    n_heads ← required kwargs "n_heads";
    n_kv_heads ← required kwargs "n_kv_heads";
    norm_eps ← required kwargs "norm_eps";
    vocab_size ← required kwargs "vocab_size";
    rope_theta ← required kwargs "rope_theta";
    Ok {| dim := dim; n_layers := n_layers; head_dim := head_dim;
          hidden_dim := hidden_dim; n_heads := n_heads;
          n_kv_heads := n_kv_heads; norm_eps := norm_eps;
          vocab_size := vocab_size; rope_theta := rope_theta;
          rope_traditional := get kwargs "rope_traditional" (VBool true) |}
  else Raise TypeError.

(** [load_model] from the parsed [config.json] and the loaded weights to
    the arguments of [Llama] and the [quantization] entry ([None] when
    there is none). *)
Definition load_config (config : gmap string value)
    (weights : gmap string array) : result (ModelArgs * value) :=
  config ← sanitize_config config weights;
  let quantization := get config "quantization" VNone in
  let config := pop config "quantization" in
  args ← ModelArgs_init config;
  Ok (args, quantization).

End WithFloat.

(** The keys of [config.json] that never reach [ModelArgs]. *)
Definition dropped : list string :=
  ["model_type"; "multiple_of"; "ffn_dim_multiplier"; "quantization"].

End LoadModel.

(** ** The forward pass and the generator, over a numeric backend *)

(** What the script uses of [mlx.core] and [mlx.nn] on scalars and rows.
    [F] is the scalar type of the arrays, [key] the state of [mx.random]. *)
Class Backend (F : Type) := {
  key : Type;
  mx_zero : F;
  mx_add : F -> F -> F;
  mx_multiply : F -> F -> F;
  mx_square : F -> F;
  mx_rsqrt : F -> F;
  (** [a.mean(-1)] of one row *)
  mx_mean : list F -> F;
  (** [mx.softmax(a, axis=-1)] of one row *)
  mx_softmax : list F -> list F;
  (** [mx.argmax(a, axis=-1)] of one row *)
  mx_argmax : list F -> Z;
  (** [mx.random.categorical(a)] of one row, threading the generator state *)
  mx_random_categorical : key -> list F -> Z * key;
  nn_silu : F -> F;
  (** [a.astype(mx.float32)] *)
  astype_float32 : F -> F;
  (** [a.astype(dtype)] for the storage type of the weights *)
  astype_dtype : F -> F;
  (** a Python float as a scalar of an array *)
  of_float : Q -> F;
  (** the entry of the additive causal mask at a disallowed position *)
  mask_value : F;
  (** the rotation [nn.RoPE] applies to one row of features at one absolute
      position, from [create_cos_sin_theta] and [_compute_rope] or
      [_compute_traditional_rope] *)
  rope_rotate : Z -> bool -> Q -> nat -> list F -> list F
}.

Module Forward.
Section WithBackend.

Context {F : Type} `{Backend F}.

(** One row of features (the last axis of an array). *)
Definition vector := list F.
(** [[L, D]]: one row per position; the batch holds a single prompt. *)
Definition matrix := list vector.
(** [[n_heads, L, D]]: per head, one row per position. *)
Definition tensor3 := list matrix.

Definition token := Z.

(** [nn.Linear(..., bias=False)], dense or quantized: a map on the last
    axis. *)
Definition Linear := vector -> vector.

(** *** Array operations, on the ranks at which the script uses them *)

Definition dot (a b : vector) : F :=
  foldl mx_add mx_zero (zip_with mx_multiply a b).

Definition width (b : matrix) : nat :=
  match b with
  | [] => O
  | row :: _ => length row
  end.

Definition column (c : nat) (b : matrix) : vector :=
  map (fun row => nth c row mx_zero) b.

(** [a @ b] on the last two axes. *)
Definition matmul2 (a b : matrix) : matrix :=
  map (fun row => map (fun c => dot row (column c b)) (seq 0 (width b))) a.

(** [a @ b.transpose(0, 1, 3, 2)] on the last two axes. *)
Definition matmul2_nt (a b : matrix) : matrix :=
  map (fun row => map (fun row' => dot row row') b) a.

Definition matmul (a b : tensor3) : tensor3 := zip_with matmul2 a b.
Definition matmul_nt (a b : tensor3) : tensor3 := zip_with matmul2_nt a b.

(** [mx.concatenate([a, b], axis=2)] of two arrays [[B, n_heads, _, D]]. *)
Definition concatenate_axis2 (a b : tensor3) : tensor3 := zip_with app a b.

(** [a.shape[2]] of an array [[B, n_heads, L, D]]. *)
Definition shape2 (a : tensor3) : nat :=
  match a with
  | [] => O
  | head :: _ => length head
  end.

(** [a.reshape(B, L, n, -1).transpose(0, 2, 1, 3)]: the features of every
    position cut into [n] consecutive rows, one per head. *)
Definition split_heads (n : nat) (a : matrix) : tensor3 :=
  map (fun h =>
         map (fun row => let d := (length row / n)%nat in
                         take d (drop (h * d) row)) a)
      (seq 0 n).

(** [a.transpose(0, 2, 1, 3).reshape(B, L, -1)]: back to one row per
    position, the heads side by side. *)
Definition merge_heads (L : nat) (a : tensor3) : matrix :=
  map (fun i => concat (map (fun head => nth i head []) a)) (seq 0 L).

(** [nn.MultiHeadAttention.create_additive_causal_mask(N)]: position [i]
    may attend to the positions [j <= i]. *)
Definition create_additive_causal_mask (N : nat) : matrix :=
  map (fun i => map (fun j => if (i <? j)%nat then mask_value else mx_zero)
                    (seq 0 N))
      (seq 0 N).

(** *** RMSNorm *)

Record RMSNorm := { RMSNorm_weight : vector; RMSNorm_eps : Q }.

Definition RMSNorm_norm (self : RMSNorm) (x : vector) : vector :=
  let r := mx_rsqrt (mx_add (mx_mean (map mx_square x))
                            (of_float (RMSNorm_eps self))) in
  map (fun xi => mx_multiply xi r) x.

Definition RMSNorm_call (self : RMSNorm) (x : vector) : vector :=
  let output := map astype_dtype (RMSNorm_norm self (map astype_float32 x)) in
  zip_with mx_multiply (RMSNorm_weight self) output.

(** *** RoPE *)

Record RoPE := { RoPE_dims : Z; RoPE_traditional : bool; RoPE_base : Q }.

(** The row at index [i] of every head sits at position [offset + i]. *)
Definition RoPE_call (self : RoPE) (x : tensor3) (offset : nat) : tensor3 :=
  map (imap (fun i row =>
               rope_rotate (RoPE_dims self) (RoPE_traditional self)
                           (RoPE_base self) (offset + i) row)) x.

(** *** Attention *)

Record Attention := {
  n_heads : Z;
  n_kv_heads : Z;
  repeats : Z;
  scale : Q;
  wq : Linear;
  wk : Linear;
  wv : Linear;
  wo : Linear;
  rope : RoPE
}.

(** [mx.concatenate([mx.expand_dims(a, 2)] * repeats, axis=2)], its two
    leading axes [[n_kv_heads, repeats]] enumerated in order: every
    key/value head copied [repeats] times in place. *)
Definition repeat_heads (self : Attention) (a : tensor3) : tensor3 :=
  flat_map (fun head => replicate (Z.to_nat (repeats self)) head) a.

(** [a.reshape([B, n, L, -1])] of heads enumerated in order.  When there
    are [n] of them the two leading axes merge and the rows stay;
    otherwise the entries, in row-major order, are cut again into [n]
    heads of [L] rows. *)
Definition reshape_heads (n L : nat) (a : tensor3) : tensor3 :=
  if (length a =? n)%nat then a
  else
    let flat := concat (concat a) in
    let d := (length flat / (n * L))%nat in
    map (fun h => map (fun l => take d (drop ((h * L + l) * d) flat))
                      (seq 0 L))
        (seq 0 n).

(** The inner [repeat] of [Attention.__call__], for [L] positions. *)
Definition repeat (self : Attention) (L : nat) (a : tensor3) : tensor3 :=
  reshape_heads (Z.to_nat (n_heads self)) L (repeat_heads self a).

(** [mx.softmax(scores.astype(mx.float32), axis=-1).astype(scores.dtype)]
    on one row of scores. *)
Definition softmax_row (scores : vector) : vector :=
  map astype_dtype (mx_softmax (map astype_float32 scores)).

Definition KVCacheEntry : Type := tensor3 * tensor3.

Definition Attention_call (self : Attention) (x : matrix)
    (mask : option matrix) (cache : option KVCacheEntry)
    : matrix * KVCacheEntry :=
  let L := length x in
  let queries := map (wq self) x in
  let keys := map (wk self) x in
  let values := map (wv self) x in
  let queries := split_heads (Z.to_nat (n_heads self)) queries in
  let keys := split_heads (Z.to_nat (n_kv_heads self)) keys in
  let values := split_heads (Z.to_nat (n_kv_heads self)) values in
  let keys := repeat self L keys in
  let values := repeat self L values in
  let '(queries, keys, values) :=
    match cache with
    | Some (key_cache, value_cache) =>
        let queries := RoPE_call (rope self) queries (shape2 key_cache) in
        let keys := RoPE_call (rope self) keys (shape2 key_cache) in
        let keys := concatenate_axis2 key_cache keys in
        let values := concatenate_axis2 value_cache values in
        (queries, keys, values)
    | None =>
        let queries := RoPE_call (rope self) queries 0 in
        let keys := RoPE_call (rope self) keys 0 in
        (queries, keys, values)
    end in
  let scaled :=
    map (map (map (fun q => mx_multiply q (of_float (scale self))))) queries in
  let scores := matmul_nt scaled keys in
  let scores :=
    match mask with
    | Some mask => map (fun s => zip_with (zip_with mx_add) s mask) scores
    | None => scores
    end in
  let scores := map (map softmax_row) scores in
  let output := merge_heads L (matmul scores values) in
  (map (wo self) output, (keys, values)).

(** *** FeedForward *)

Record FeedForward := { w1 : Linear; w2 : Linear; w3 : Linear }.

Definition FeedForward_call (self : FeedForward) (x : vector) : vector :=
  w2 self (zip_with mx_multiply (map nn_silu (w1 self x)) (w3 self x)).

(** *** TransformerBlock *)

Record TransformerBlock := {
  attention : Attention;
  feed_forward : FeedForward;
  attention_norm : RMSNorm;
  ffn_norm : RMSNorm
}.

Definition TransformerBlock_call (self : TransformerBlock) (x : matrix)
    (mask : option matrix) (cache : option KVCacheEntry)
    : matrix * KVCacheEntry :=
  let '(r, cache) :=
    Attention_call (attention self)
                   (map (RMSNorm_call (attention_norm self)) x) mask cache in
  let h := zip_with (zip_with mx_add) x r in
  let r := map (fun hi => FeedForward_call (feed_forward self)
                            (RMSNorm_call (ffn_norm self) hi)) h in
  let out := zip_with (zip_with mx_add) h r in
  (out, cache).

(** *** Llama *)

Record Llama := {
  tok_embeddings : token -> vector;
  layers : list TransformerBlock;
  norm : RMSNorm;
  output : Linear
}.

(** [Llama.__call__]: the logits of every position. *)
Definition Llama_call (self : Llama) (x : list token) : matrix :=
  let mask := create_additive_causal_mask (length x) in
  let mask := map (map astype_dtype) mask in
  let x := map (tok_embeddings self) x in
  let x := foldl (fun x l => fst (TransformerBlock_call l x (Some mask) None))
                 x (layers self) in
  let x := map (RMSNorm_call (norm self)) x in
  map (output self) x.

(** The inner [sample] of [Llama.generate]. *)
Definition sample (temp : Q) (logits : vector) (k : key) : Z * key :=
  if Qeq_bool temp 0 then (mx_argmax logits, k)
  else mx_random_categorical k
         (map (fun l => mx_multiply l (of_float (1 / temp))) logits).

(** [x[:, -1]]. *)
Definition last_row (x : matrix) : result vector :=
  match last x with
  | Some row => Ok row
  | None => Raise IndexError
  end.

(** [Llama.generate] up to the logits of the first token: the prompt goes
    through every layer and each layer's keys and values are appended to
    [cache]. *)
Definition generate_prompt (self : Llama) (x : list token)
    : result (list KVCacheEntry * vector) :=
  let cache := [] in
  let mask := create_additive_causal_mask (length x) in
  let mask := map (map astype_dtype) mask in
  let x := map (tok_embeddings self) x in
  let '(x, cache) :=
    foldl (fun '(x, cache) l =>
             let '(x, c) := TransformerBlock_call l x (Some mask) None in
             (x, cache ++ [c]))
          (x, cache) (layers self) in
  let x := map (RMSNorm_call (norm self)) x in
  row ← last_row x;
  Ok (cache, output self row).

(** One turn of the [while True] loop up to the logits: the last token
    alone goes through every layer with that layer's cache, which is
    overwritten. *)
Definition generate_step (self : Llama) (cache : list KVCacheEntry)
    (y : token) : result (list KVCacheEntry * vector) :=
  let x := [tok_embeddings self y] in
  '(x, cache) ←
    foldl (fun acc i =>
             '(x, cache) ← acc;
             match layers self !! i, cache !! i with
             | Some l, Some c =>
                 let '(x, c) := TransformerBlock_call l x None (Some c) in
                 Ok (x, <[i := c]> cache)
             | _, _ => Raise IndexError
             end)
          (Ok (x, cache)) (seq 0 (length cache));
  let x := map (RMSNorm_call (norm self)) x in
  row ← last_row x;
  Ok (cache, output self row).

(** The generator [Llama.generate(x, temp)] between two [yield]s. *)
Inductive generator : Type :=
| Created (x : list token)
| Suspended (cache : list KVCacheEntry) (y : token).

(** [next(g)]: run the generator up to its next [yield]. *)
Definition generator_next (self : Llama) (temp : Q) (g : generator) (k : key)
    : result (token * generator * key) :=
  match g with
  | Created x =>
      '(cache, logits) ← generate_prompt self x;
      let '(y, k) := sample temp logits k in
      Ok (y, Suspended cache y, k)
  | Suspended cache y =>
      '(cache, logits) ← generate_step self cache y;
      let '(y, k) := sample temp logits k in
      Ok (y, Suspended cache y, k)
  end.


End WithBackend.

#[global] Arguments Attention_call : simpl never.
#[global] Arguments TransformerBlock_call : simpl never.
#[global] Arguments Llama_call : simpl never.
#[global] Arguments generate_prompt : simpl never.
#[global] Arguments generate_step : simpl never.

End Forward.

(** The two loops of [Llama.generate] over the layers, by recursion on the
    list of layers; [generate_prompt] and [generate_step] are shown to
    compute them. *)
Module Layers.
Section WithBackend.

Context {F : Type} `{Backend F}.
Import Forward.

(** [for l in self.layers: x, c = l(x, mask=mask); cache.append(c)] *)
Fixpoint prompt_layers (ls : list (@TransformerBlock F)) (mask : matrix)
    (x : matrix) : matrix * list KVCacheEntry :=
  match ls with
  | [] => (x, [])
  | l :: ls =>
      let '(x, c) := TransformerBlock_call l x (Some mask) None in
      let '(x, cache) := prompt_layers ls mask x in
      (x, c :: cache)
  end.

(** [for i in range(len(cache)):
       x, cache[i] = self.layers[i](x, mask=None, cache=cache[i])] *)
Fixpoint step_layers (ls : list (@TransformerBlock F))
    (cache : list KVCacheEntry) (x : matrix) : matrix * list KVCacheEntry :=
  match ls, cache with
  | l :: ls, c :: cache =>
      let '(x, c) := TransformerBlock_call l x None (Some c) in
      let '(x, cache) := step_layers ls cache x in
      (x, c :: cache)
  | _, _ => (x, [])
  end.

(** A generator that can be resumed: a prompt of at least one token, or
    one cache entry per layer. *)
Definition resumable (self : @Llama F) (g : @generator F) : Prop :=
  match g with
  | Created x => x <> []
  | Suspended cache _ => length cache = length (layers self)
  end.

End WithBackend.
End Layers.

(** What the claim on cache equivalence is stated with. *)
Module Causal.
Section WithBackend.

Context {F : Type} `{Backend F}.
Import Forward.

(** Exact arithmetic with an exact mask: adding zero and multiplying zero
    do what they do on numbers, [mx.softmax] keeps the length of a row, and
    a score to which the mask value was added weighs exactly zero and does
    not change the other weights (in floating point: the exponential of a
    score near [-1e9] underflows to zero). *)
Class ExactBackend : Prop := {
  add_zero_r : forall x : F, mx_add x mx_zero = x;
  multiply_zero_l : forall x : F, mx_multiply mx_zero x = mx_zero;
  astype_dtype_zero : astype_dtype mx_zero = (mx_zero : F);
  softmax_length : forall l : list F, length (mx_softmax l) = length l;
  softmax_masked : forall ss tl : list F,
    ss <> [] ->
    softmax_row (ss ++ map (fun s => mx_add s (astype_dtype mask_value)) tl)
    = softmax_row ss ++ map (fun _ => mx_zero) tl
}.

(** The attention modules on which the value model follows the script:
    [repeats] copies of each of the [n_kv_heads] heads make [n_heads]. *)
Definition well_formed (a : @Attention F) : Prop :=
  0 < n_kv_heads a /\ 0 < repeats a /\
  n_heads a = n_kv_heads a * repeats a.

(** The output of one head at one query position, from the keys and
    values it sees. *)
Definition attend_row (scale : Q) (mask_row : option vector) (q : vector)
    (ks vs : matrix) : vector :=
  let raw := map (dot (map (fun x => mx_multiply x (of_float scale)) q)) ks in
  let s := match mask_row with
           | Some m => zip_with mx_add raw m
           | None => raw
           end in
  let w := softmax_row s in
  map (fun c => dot w (column c vs)) (seq 0 (width vs)).

(** Causal attention of one head: position [i] sees the first [i + 1] keys
    and values, unmasked. *)
Definition causal_head (scale : Q) (qs ks vs : matrix) : matrix :=
  imap (fun i q => attend_row scale None q (take (S i) ks) (take (S i) vs)) qs.

(** The mask of [Llama.__call__] and [Llama.generate]. *)
Definition causal_mask (N : nat) : matrix :=
  map (map astype_dtype) (create_additive_causal_mask N).

(** The row [i] of the causal mask of size [N]. *)
Definition mask_row (N i : nat) : vector :=
  replicate (S i) mx_zero ++ replicate (N - S i) (astype_dtype mask_value).

(** Every head spans [L] positions. *)
Definition spans (L : nat) (a : @tensor3 F) : Prop :=
  Forall (fun head : @matrix F => length head = L) a.

(** The attention of one head, as [Attention.__call__] computes it. *)
Definition head_attention (scale : Q) (mask : option matrix)
    (q k v : matrix) : matrix :=
  let scaled := map (map (fun x => mx_multiply x (of_float scale))) q in
  let scores := matmul2_nt scaled k in
  let scores := match mask with
                | Some mask => zip_with (zip_with mx_add) scores mask
                | None => scores
                end in
  matmul2 (map softmax_row scores) v.

(** ... and of all the heads. *)
Definition heads_attention (scale : Q) (mask : option matrix)
    (q k v : tensor3) : tensor3 :=
  zip_with (fun qk v => head_attention scale mask qk.1 qk.2 v) (zip q k) v.

End WithBackend.

#[global] Arguments ExactBackend {F} _.

End Causal.

(** Generation without the cache: every token comes from a full forward
    pass ([Llama.__call__]) over the prompt and the tokens drawn so far,
    sampled as [Llama.generate] samples. *)
Module Recompute.
Section WithBackend.

Context {F : Type} `{Backend F}.
Import Forward.


End WithBackend.
End Recompute.

(** ** The generation driver and the statistics block *)

Module Driver.

(** [s[skip:]] *)
Fixpoint slice_from (skip : nat) (s : string) : string :=
  match skip, s with
  | O, _ => s
  | S n, String _ s' => slice_from n s'
  | S _, EmptyString => EmptyString
  end.

(** [a / b] on Python floats (and on a float and an int). *)
Definition truediv (a b : Q) : result Q :=
  if Qeq_bool b 0 then Raise ZeroDivisionError else Ok (a / b)%Q.

(** The command-line arguments the driver reads. *)
Record Args := {
  prompt : string;
  max_tokens : Z;
  write_every : Z;
  temp : Q
}.

Record ModelStats := {
  start_load : Q;
  end_load : Q;
  start_gen : Q;
  end_prompt : Q;
  end_gen : Q;
  num_tokens_prompt : Z;
  num_tokens_response : Z
}.

Definition ModelStats_init : ModelStats :=
  {| start_load := 0; end_load := 0; start_gen := 0; end_prompt := 0;
     end_gen := 0; num_tokens_prompt := 0; num_tokens_response := 0 |}.

Definition set_start_gen (t : Q) (st : ModelStats) : ModelStats :=
  {| start_load := start_load st; end_load := end_load st; start_gen := t;
     end_prompt := end_prompt st; end_gen := end_gen st;
     num_tokens_prompt := num_tokens_prompt st;
     num_tokens_response := num_tokens_response st |}.

Definition set_end_prompt (t : Q) (st : ModelStats) : ModelStats :=
  {| start_load := start_load st; end_load := end_load st;
     start_gen := start_gen st; end_prompt := t; end_gen := end_gen st;
     num_tokens_prompt := num_tokens_prompt st;
     num_tokens_response := num_tokens_response st |}.

Definition set_end_gen (t : Q) (st : ModelStats) : ModelStats :=
  {| start_load := start_load st; end_load := end_load st;
     start_gen := start_gen st; end_prompt := end_prompt st; end_gen := t;
     num_tokens_prompt := num_tokens_prompt st;
     num_tokens_response := num_tokens_response st |}.

Definition set_num_tokens_prompt (n : Z) (st : ModelStats) : ModelStats :=
  {| start_load := start_load st; end_load := end_load st;
     start_gen := start_gen st; end_prompt := end_prompt st;
     end_gen := end_gen st; num_tokens_prompt := n;
     num_tokens_response := num_tokens_response st |}.

Definition set_num_tokens_response (n : Z) (st : ModelStats) : ModelStats :=
  {| start_load := start_load st; end_load := end_load st;
     start_gen := start_gen st; end_prompt := end_prompt st;
     end_gen := end_gen st; num_tokens_prompt := num_tokens_prompt st;
     num_tokens_response := n |}.

(** The [SentencePieceProcessor], a black box. *)
Record Tokenizer := {
  bos_id : Z;
  encode : string -> list Z;
  decode : list Z -> string
}.

(** One call of [print]: the text and the [end] written after it. *)
Inductive printed : Type :=
| Print (text : string) (end_ : string).

Definition newline : string := String (ascii_of_nat 10) EmptyString.

Section WithModel.

Context {F : Type} `{Backend F}.

(** What the driver runs in: the globals [model] and [tokenizer], the
    clock behind [time.time()] (its successive readings), and the text
    form of a float under [:.2f] and of an integer. *)
Record Env := {
  model : @Forward.Llama F;
  tokenizer : Tokenizer;
  time : nat -> Q;
  format_2f : Q -> string;
  format_int : Z -> string
}.

(** What the driver changes: standard output, the number of clock
    readings so far, the state of [mx.random]. *)
Record world := {
  stdout : list printed;
  clock : nat;
  random_key : key
}.

Definition print (text end_ : string) (w : world) : world :=
  {| stdout := stdout w ++ [Print text end_]; clock := clock w;
     random_key := random_key w |}.

Definition time_time (env : Env) (w : world) : Q * world :=
  (time env (clock w),
   {| stdout := stdout w; clock := S (clock w); random_key := random_key w |}).

Definition set_random_key (k : key) (w : world) : world :=
  {| stdout := stdout w; clock := clock w; random_key := k |}.

(** The local state of the [for] loop of [generate]. *)
Record loop_state := {
  ls_gen : @Forward.generator F;
  ls_tokens : list Z;
  ls_skip : nat;
  ls_stats : ModelStats;
  ls_world : world
}.

(** How one turn of the [for] loop ends. *)
Inductive control : Type :=
| Break
| Continue.

(** One turn of [for token in model.generate(x, args.temp)]: the
    generator is resumed for [token], then the body runs. *)
Definition loop_body (env : Env) (args : Args) (st : loop_state)
    : result (control * loop_state) :=
  '(token, g, k) ←
    Forward.generator_next (model env) (temp args) (ls_gen st)
                           (random_key (ls_world st));
  let w := set_random_key k (ls_world st) in
  let tokens := ls_tokens st ++ [token] in
  let '(stats, w) :=
    if (length tokens =? 1)%nat
    then (* mx.eval(token) *)
         let '(t, w) := time_time env w in
         (set_end_prompt t (ls_stats st), w)
    else (ls_stats st, w) in
  if Z.of_nat (length tokens) >=? max_tokens args
  then Ok (Break,
           {| ls_gen := g; ls_tokens := tokens; ls_skip := ls_skip st;
              ls_stats := stats; ls_world := w |})
  else if write_every args =? 0
  then Raise ZeroDivisionError
  else if Z.of_nat (length tokens) mod write_every args =? 0
  then (* mx.eval(tokens) *)
       let s := decode (tokenizer env) tokens in
       let w := print (slice_from (ls_skip st) s) "" w in
       Ok (Continue,
           {| ls_gen := g; ls_tokens := tokens; ls_skip := String.length s;
              ls_stats := stats; ls_world := w |})
  else Ok (Continue,
           {| ls_gen := g; ls_tokens := tokens; ls_skip := ls_skip st;
              ls_stats := stats; ls_world := w |}).

(** The loop; [fuel] bounds the number of turns, [None] is a loop still
    running when the fuel is spent. *)
Fixpoint generate_loop (env : Env) (args : Args) (fuel : nat)
    (st : loop_state) : option (result loop_state) :=
  match fuel with
  | O => None
  | S fuel =>
      match loop_body env args st with
      | Raise e => Some (Raise e)
      | Ok (Break, st) => Some (Ok st)
      | Ok (Continue, st) => generate_loop env args fuel st
      end
  end.

(** The driver's [generate(args, stats)]. *)
Definition generate (env : Env) (args : Args) (fuel : nat)
    (stats : ModelStats) (w : world) : option (result loop_state) :=
  let w := print "------" newline w in
  let w := print (prompt args) newline w in
  let '(t, w) := time_time env w in
  let stats := set_start_gen t stats in
  let x := [bos_id (tokenizer env)] ++ encode (tokenizer env) (prompt args) in
  let stats := set_num_tokens_prompt (Z.of_nat (length x) - 1) stats in
  let skip := O in
  let tokens := [] in
  let '(t, w) := time_time env w in
  let stats := set_start_gen t stats in
  match generate_loop env args fuel
          {| ls_gen := Forward.Created x; ls_tokens := tokens;
             ls_skip := skip;
             ls_stats := stats; ls_world := w |} with
  | None => None
  | Some (Raise e) => Some (Raise e)
  | Some (Ok st) =>
      (* mx.eval(tokens) *)
      let '(t, w) := time_time env (ls_world st) in
      let stats := set_end_gen t (ls_stats st) in
      let s := decode (tokenizer env) (ls_tokens st) in
      let w := print (slice_from (ls_skip st) s) newline w in
      let stats :=
        set_num_tokens_response (Z.of_nat (length (ls_tokens st))) stats in
      let w := print "------" newline w in
      Some (Ok {| ls_gen := ls_gen st; ls_tokens := ls_tokens st;
                  ls_skip := ls_skip st;
                  ls_stats := stats; ls_world := w |})
  end.

(** The statistics block at the end of [__main__]. *)
Definition print_statistics (env : Env) (stats : ModelStats) (w : world)
    : result world :=
  let f := format_2f env in
  let w := print "[INFO] Statistics:" newline w in
  let w :=
    print ("[INFO]        load time: "
           +:+ f ((end_load stats - start_load stats) * 1000)%Q +:+ " ms")
          newline w in
  let prompt_time := (end_prompt stats - start_gen stats)%Q in
  let n_prompt := inject_Z (num_tokens_prompt stats) in
  ms_per_token ← truediv (prompt_time * 1000)%Q n_prompt;
  token_per_s ← truediv n_prompt prompt_time;
  let w :=
    print ("[INFO] prompt eval time: " +:+ f (prompt_time * 1000)%Q
           +:+ " ms / " +:+ format_int env (num_tokens_prompt stats)
           +:+ " tokens " +:+ " " +:+ " (" +:+ f ms_per_token
           +:+ " ms/token, " +:+ f token_per_s +:+ " token/s)")
          newline w in
  let eval_time := (end_gen stats - end_prompt stats)%Q in
  let n_response := inject_Z (num_tokens_response stats) in
  ms_per_token ← truediv (eval_time * 1000)%Q n_response;
  token_per_s ← truediv n_response eval_time;
  let w :=
    print ("[INFO]        eval time: " +:+ f (eval_time * 1000)%Q
           +:+ " ms / " +:+ format_int env (num_tokens_response stats)
           +:+ " tokens " +:+ " " +:+ "(" +:+ f ms_per_token
           +:+ " ms/token, " +:+ f token_per_s +:+ " token/s)")
          newline w in
  Ok w.

(** [__main__] once the model and the tokenizer are loaded: [generate],
    then the statistics. *)
Definition main (env : Env) (args : Args) (fuel : nat)
    (stats : ModelStats) (w : world) : option (result world) :=
  match generate env args fuel stats w with
  | None => None
  | Some (Raise e) => Some (Raise e)
  | Some (Ok st) => Some (print_statistics env (ls_stats st) (ls_world st))
  end.

End WithModel.
End Driver.

(** What the claims about the driver are stated with. *)
Module DriverSpec.
Section WithModel.

Context {F : Type} `{Backend F}.
Import Driver.




(** The statistics are guarded against a prompt of zero tokens: the run
    does not end in a division by zero. *)
Definition statistics_guarded (env : Env) (args : Args) (fuel : nat)
    (stats : ModelStats) (w : world) : Prop :=
  encode (tokenizer env) (prompt args) = [] ->
  main env args fuel stats w <> Some (Raise ZeroDivisionError).

(** On the token sequence [ts], the text of a longer non-empty prefix
    extends the text of a shorter one. *)
Definition decode_extends_on (tok : Tokenizer) (ts : list Z) : Prop :=
  forall i j, (1 <= i <= j)%nat -> (j <= length ts)%nat ->
    exists rest,
      decode tok (take j ts) = (decode tok (take i ts) +:+ rest)%string.

(** What every turn of the loop does to the loop state, whatever the
    branch: one token more, drawn by resuming the generator. *)
Definition turn (env : Env) (args : Args) (st st' : loop_state) : Prop :=
  exists y cache,
    Forward.generator_next (model env) (temp args) (ls_gen st)
                           (random_key (ls_world st))
      = Ok (y, Forward.Suspended cache y, random_key (ls_world st')) /\
    ls_gen st' = Forward.Suspended cache y /\
    ls_tokens st' = ls_tokens st ++ [y] /\
    num_tokens_prompt (ls_stats st') = num_tokens_prompt (ls_stats st) /\
    (stdout (ls_world st') = stdout (ls_world st) /\
     ls_skip st' = ls_skip st
     \/
     let s := decode (tokenizer env) (ls_tokens st') in
     stdout (ls_world st')
       = stdout (ls_world st) ++ [Print (slice_from (ls_skip st) s) ""] /\
     ls_skip st' = String.length s).

End WithModel.
End DriverSpec.

(** ** A small backend, model and tokenizer to run the definitions on *)

Module Toy.

(** Integers with a bottom element [None] standing for minus infinity:
    exact arithmetic in which a masked score weighs exactly nothing. *)
Definition scalar := option Z.

Definition add (a b : scalar) : scalar :=
  match a, b with
  | Some x, Some y => Some (x + y)
  | _, _ => None
  end.

Definition multiply (a b : scalar) : scalar :=
  match a, b with
  | Some 0, _ => Some 0
  | Some x, Some y => Some (x * y)
  | _, _ => None
  end.

Definition sum (l : list scalar) : scalar := foldl add (Some 0) l.

Definition mean (l : list scalar) : scalar :=
  match sum l with
  | Some s => Some (s / Z.of_nat (length l))
  | None => None
  end.

(** Unnormalised weights: positive on a finite score, zero on a masked
    one. *)
Definition softmax (l : list scalar) : list scalar :=
  map (fun s => match s with
                | Some x => Some (1 + Z.abs x)
                | None => Some 0
                end) l.

Definition leb (a b : scalar) : bool :=
  match a, b with
  | None, _ => true
  | Some _, None => false
  | Some x, Some y => x <=? y
  end.

(** The index of the first largest entry. *)
Fixpoint argmax_from (i best : Z) (m : scalar) (l : list scalar) : Z :=
  match l with
  | [] => best
  | x :: l => if leb x m then argmax_from (i + 1) best m l
              else argmax_from (i + 1) i x l
  end.

Definition argmax (l : list scalar) : Z :=
  match l with
  | [] => 0
  | x :: l => argmax_from 1 0 x l
  end.

Definition categorical (k : nat) (l : list scalar) : Z * nat :=
  (Z.of_nat (k mod length l), S k).

#[export] Instance backend : Backend scalar := {|
  key := nat;
  mx_zero := Some 0;
  mx_add := add;
  mx_multiply := multiply;
  mx_square := fun x => multiply x x;
  mx_rsqrt := fun x => x;
  mx_mean := mean;
  mx_softmax := softmax;
  mx_argmax := argmax;
  mx_random_categorical := categorical;
  nn_silu := fun x => x;
  astype_float32 := fun x => x;
  astype_dtype := fun x => x;
  of_float := fun q => Some (Qfloor q);
  mask_value := None;
  rope_rotate := fun _ _ _ pos row => map (add (Some (Z.of_nat pos))) row
|}.

(** Entries are kept small by reducing them modulo 7 after every linear
    map. *)
Definition small (x : scalar) : scalar :=
  match x with
  | Some z => Some (z mod 7)
  | None => None
  end.

Definition attention : @Forward.Attention scalar := {|
  Forward.n_heads := 2;
  Forward.n_kv_heads := 1;
  Forward.repeats := 2;
  Forward.scale := 1;
  Forward.wq := fun v => map small v;
  Forward.wk := fun v => [small (sum v)];
  Forward.wv := fun v => map small (take 1 v);
  Forward.wo := fun v => map small v;
  Forward.rope :=
    {| Forward.RoPE_dims := 1; Forward.RoPE_traditional := true;
       Forward.RoPE_base := 10000 |}
|}.

Definition block : @Forward.TransformerBlock scalar := {|
  Forward.attention := attention;
  Forward.feed_forward :=
    {| Forward.w1 := fun v => map small v;
       Forward.w2 := fun v => map small v;
       Forward.w3 := fun v => map small (rev v) |};
  Forward.attention_norm :=
    {| Forward.RMSNorm_weight := [Some 1; Some 1];
       Forward.RMSNorm_eps := 1 |};
  Forward.ffn_norm :=
    {| Forward.RMSNorm_weight := [Some 1; Some 2];
       Forward.RMSNorm_eps := 1 |}
|}.

(** Two layers, model dimension 2, two query heads sharing one key/value
    head, a vocabulary of five tokens. *)
Definition llama : @Forward.Llama scalar := {|
  Forward.tok_embeddings := fun t => [Some (t mod 5); Some ((t + 1) mod 3)];
  Forward.layers := [block; block];
  Forward.norm :=
    {| Forward.RMSNorm_weight := [Some 1; Some 1];
       Forward.RMSNorm_eps := 1 |};
  Forward.output := fun v =>
    let s := small (sum v) in
    [small (multiply s (Some 3)); s; small (add s (Some 4));
     small (multiply s s); small (add s (Some 1))]
|}.

End Toy.

(** Two tokenizers and an environment for the driver around [Toy.llama]. *)
Module ToyDriver.
Import Driver.

Definition letter (t : Z) : string :=
  String (ascii_of_nat (Z.to_nat (96 + t))) EmptyString.

Fixpoint encode_letters (s : string) : list Z :=
  match s with
  | EmptyString => []
  | String c s => (Z.of_nat (nat_of_ascii c) - 96) :: encode_letters s
  end.

Fixpoint decode_letters (ts : list Z) : string :=
  match ts with
  | [] => EmptyString
  | t :: ts => (letter t +:+ decode_letters ts)%string
  end.

(** One token per letter: [a] is 1, [b] is 2, ... *)
Definition letters : Tokenizer :=
  {| bos_id := 1; encode := encode_letters; decode := decode_letters |}.



Definition env (tok : Tokenizer) : @Env Toy.scalar :=
  {| model := Toy.llama;
     tokenizer := tok;
     time := fun n => inject_Z (Z.of_nat n);
     format_2f := fun q => (pretty (Qfloor q) +:+ ".00")%string;
     format_int := pretty |}.

Definition world0 : @world Toy.scalar Toy.backend :=
  {| stdout := []; clock := 0%nat; random_key := (0%nat : @key _ Toy.backend) |}.

Definition args (prompt : string) (max_tokens write_every : Z) : Args :=
  {| Driver.prompt := prompt; Driver.max_tokens := max_tokens;
     Driver.write_every := write_every; temp := 0 |}.

End ToyDriver.

(** ** The shapes of the arrays of the forward pass *)

(** [ModelArgs], as [sanitize_config] and the JSON config fill it. *)
Record ModelArgs := {
  dim : Z;
  n_layers : Z;
  head_dim : Z;
  hidden_dim : Z;
  n_heads : Z;
  n_kv_heads : Z;
  norm_eps : Q;
  vocab_size : Z;
  rope_theta : Q;
  rope_traditional : bool
}.

(** Every [mx] operation of the script determines the shape of its result
    from the shapes of its arguments, or fails on them; this module runs
    the script on shapes alone. *)
Module Shapes.

Definition shape := list Z.

(** [a.size] *)
Definition numel (a : shape) : Z := foldr Z.mul 1 a.

(** [a.reshape(target)]: at most one dimension of [target] is [-1] and is
    inferred; the number of elements is kept. *)
Definition reshape (a : shape) (target : list Z) : result shape :=
  if existsb (fun d => d <? -1) target then Raise ValueError
  else
    let known := numel (List.filter (fun d => negb (d =? -1)) target) in
    match List.filter (fun d => d =? -1) target with
    | [] => if numel a =? known then Ok target else Raise ValueError
    | [_] =>
        if known =? 0 then Raise ValueError
        else if numel a mod known =? 0
        then Ok (map (fun d => if d =? -1 then numel a / known else d) target)
        else Raise ValueError
    | _ => Raise ValueError
    end.

Fixpoint nodupb (l : list nat) : bool :=
  match l with
  | [] => true
  | i :: l => negb (existsb (Nat.eqb i) l) && nodupb l
  end.

(** [a.transpose(axes)] *)
Definition transpose (a : shape) (axes : list nat) : result shape :=
  if (length axes =? length a)%nat
     && forallb (fun i => (i <? length a)%nat) axes && nodupb axes
  then Ok (map (fun i => nth i a 0) axes)
  else Raise ValueError.

(** [mx.expand_dims(a, axis)] *)
Definition expand_dims (a : shape) (axis : nat) : result shape :=
  if (axis <=? length a)%nat then Ok (take axis a ++ [1] ++ drop axis a)
  else Raise ValueError.

(** Two shapes that differ at most at [axis]. *)
Definition same_but (axis : nat) (a b : shape) : bool :=
  (length a =? length b)%nat && (axis <? length a)%nat
  && forallb (fun i => (i =? axis)%nat || (nth i a 0 =? nth i b 0))
             (seq 0 (length a)).

(** [mx.concatenate(arrays, axis)] *)
Fixpoint concatenate_onto (a : shape) (arrays : list shape) (axis : nat)
    : result shape :=
  match arrays with
  | [] => Ok a
  | b :: arrays =>
      if same_but axis a b
      then concatenate_onto (<[axis := nth axis a 0 + nth axis b 0]> a)
                            arrays axis
      else Raise ValueError
  end.

Definition concatenate (arrays : list shape) (axis : nat) : result shape :=
  match arrays with
  | [] => Raise ValueError
  | a :: arrays =>
      if (axis <? length a)%nat then concatenate_onto a arrays axis
      else Raise ValueError
  end.

(** Broadcasting, from the last axis backwards. *)
Fixpoint broadcast_rev (a b : list Z) : result (list Z) :=
  match a, b with
  | [], _ => Ok b
  | _, [] => Ok a
  | x :: a, y :: b =>
      rest ← broadcast_rev a b;
      if x =? y then Ok (x :: rest)
      else if x =? 1 then Ok (y :: rest)
      else if y =? 1 then Ok (x :: rest)
      else Raise ValueError
  end.

(** The shape of [a + b] and [a * b]. *)
Definition broadcast (a b : shape) : result shape :=
  r ← broadcast_rev (rev a) (rev b); Ok (rev r).

(** [a @ b] for arrays of rank at least 2. *)
Definition matmul (a b : shape) : result shape :=
  match rev a, rev b with
  | k :: m :: batch_a, n :: k' :: batch_b =>
      if k =? k'
      then batch ← broadcast_rev batch_a batch_b; Ok (rev batch ++ [m; n])
      else Raise ValueError
  | _, _ => Raise ValueError
  end.

(** [nn.Linear(input_dims, output_dims, bias=False)(x)] *)
Definition Linear (input_dims output_dims : Z) (x : shape) : result shape :=
  match rev x with
  | d :: batch =>
      if d =? input_dims then Ok (rev batch ++ [output_dims])
      else Raise ValueError
  | [] => Raise ValueError
  end.

(** [nn.Embedding(num_embeddings, dims)(x)] *)
Definition Embedding (dims : Z) (x : shape) : shape := x ++ [dims].

(** [x[:, -1]] *)
Definition last_position (x : shape) : result shape :=
  match x with
  | B :: L :: rest => if 1 <=? L then Ok (B :: rest) else Raise IndexError
  | _ => Raise IndexError
  end.

(** [y[:, None]] *)
Definition add_axis1 (y : shape) : result shape :=
  match y with
  | B :: rest => Ok (B :: 1 :: rest)
  | [] => Raise IndexError
  end.

(** [RMSNorm.__call__]: the mean keeps the last axis with size 1; the
    weight is a vector of [dims] entries. *)
Definition RMSNorm_call (dims : Z) (x : shape) : result shape :=
  match rev x with
  | _ :: batch =>
      r ← broadcast x (rev batch ++ [1]);
      broadcast [dims] r
  | [] => Raise ValueError
  end.

(** [a.shape[i]] for an index [i] that is not negative. *)
Definition shape_at (a : shape) (i : nat) : result Z :=
  match a !! i with
  | Some d => Ok d
  | None => Raise IndexError
  end.

(** The number of entries [a[..., start:stop]] keeps of a last axis of
    size [d]: negative bounds count from the end, and both are clipped. *)
Definition slice_length (start stop d : Z) : Z :=
  let clip i := Z.max 0 (Z.min d (if i <? 0 then i + d else i)) in
  Z.max 0 (clip stop - clip start).

(** [a[..., f]] for a slice [f] of the last axis, given what it keeps. *)
Definition slice_last (a : shape) (keep : Z -> Z) : result shape :=
  match rev a with
  | d :: batch => Ok (rev batch ++ [keep d])
  | [] => Raise IndexError
  end.

(** [a - b], [a + b] and [a * b] of two products [x * c] and [y * s]. *)
Definition combine (x c y s : shape) : result shape :=
  a ← broadcast x c;
  b ← broadcast y s;
  broadcast a b.

(** [nn.RoPE.create_cos_sin_theta(N, D, offset, base)]: one row per
    position from [offset] to [N], one column per pair of features; the
    shape of [costheta], which is that of [sintheta]. *)
Definition create_cos_sin_theta (N D offset : Z) (base : Q) : result shape :=
  let D := D / 2 in
  let positions := [Z.max 0 (N - offset)] in
  (* math.log(base) / D *)
  if Qle_bool base 0 then Raise ValueError
  else if D =? 0 then Raise ZeroDivisionError
  else
    let freqs := [Z.max 0 D] in
    p ← reshape positions [-1; 1];
    f ← reshape freqs [1; -1];
    broadcast p f.

(** [nn.RoPE._compute_rope]: the two halves of the first [dims]
    features. *)
Definition compute_rope (dims : Z) (theta x : shape) : result shape :=
  x1 ← slice_last x (slice_length 0 (dims / 2));
  x2 ← slice_last x (slice_length (dims / 2) dims);
  rx1 ← combine x1 theta x2 theta;
  rx2 ← combine x1 theta x2 theta;
  d ← shape_at (rev x) 0;
  if dims <? d
  then rest ← slice_last x (fun d => slice_length dims d d);
       concatenate [rx1; rx2; rest] (length x - 1)
  else concatenate [rx1; rx2] (length x - 1).

(** [nn.RoPE._compute_traditional_rope]: the features at even and at odd
    indices, put back in pairs. *)
Definition compute_traditional_rope (dims : Z) (theta x : shape)
    : result shape :=
  x1 ← slice_last x (fun d => (d + 1) / 2);
  x2 ← slice_last x (fun d => d / 2);
  rx1 ← combine x1 theta x2 theta;
  rx2 ← combine x1 theta x2 theta;
  d ← shape_at (rev x) 0;
  if dims <? d then Raise NotImplementedError
  else concatenate [rx1 ++ [1]; rx2 ++ [1]] (length rx1).

(** [RoPE.__call__]: the array is flattened to [(-1, shape[-2], shape[-1])],
    rotated by the angles of its positions and brought back to its
    shape. *)
Definition RoPE_call (dims : Z) (traditional : bool) (base : Q) (x : shape)
    (offset : Z) : result shape :=
  match rev x with
  | d :: l :: _ =>
      x3 ← reshape x [-1; l; d];
      n ← shape_at x3 1;
      theta ← create_cos_sin_theta (n + offset) dims offset base;
      rx ← (if traditional then compute_traditional_rope dims theta x3
            else compute_rope dims theta x3);
      reshape rx x
  | _ => Raise IndexError
  end.

(** [n_heads // n_kv_heads], computed by [Attention.__init__]. *)
Definition Attention_repeats (args : ModelArgs) : result Z :=
  if n_kv_heads args =? 0 then Raise ZeroDivisionError
  else Ok (n_heads args / n_kv_heads args).

Definition KVCacheEntry : Type := shape * shape.

Definition Attention_call (args : ModelArgs) (x : shape)
    (mask : option shape) (cache : option KVCacheEntry)
    : result (shape * KVCacheEntry) :=
  repeats ← Attention_repeats args;
  match x with
  | [B; L; D] =>
      queries ← Linear (dim args) (n_heads args * head_dim args) x;
      keys ← Linear (dim args) (n_kv_heads args * head_dim args) x;
      values ← Linear (dim args) (n_kv_heads args * head_dim args) x;
      queries ← reshape queries [B; L; n_heads args; -1];
      queries ← transpose queries [0; 2; 1; 3]%nat;
      keys ← reshape keys [B; L; n_kv_heads args; -1];
      keys ← transpose keys [0; 2; 1; 3]%nat;
      values ← reshape values [B; L; n_kv_heads args; -1];
      values ← transpose values [0; 2; 1; 3]%nat;
      let repeat a :=
        a ← expand_dims a 2;
        a ← concatenate (replicate (Z.to_nat repeats) a) 2;
        reshape a [B; n_heads args; L; -1] in
      keys ← repeat keys;
      values ← repeat values;
      let rope :=
        RoPE_call (head_dim args) (rope_traditional args) (rope_theta args) in
      '(queries, keys, values) ←
        match cache with
        | Some (key_cache, value_cache) =>
            offset ← shape_at key_cache 2;
            queries ← rope queries offset;
            offset ← shape_at key_cache 2;
            keys ← rope keys offset;
            keys ← concatenate [key_cache; keys] 2;
            values ← concatenate [value_cache; values] 2;
            Ok (queries, keys, values)
        | None =>
            queries ← rope queries 0;
            keys ← rope keys 0;
            Ok (queries, keys, values)
        end;
      keys_t ← transpose keys [0; 1; 3; 2]%nat;
      scores ← matmul queries keys_t;
      scores ← match mask with
               | Some mask => broadcast scores mask
               | None => Ok scores
               end;
      output ← matmul scores values;
      output ← transpose output [0; 2; 1; 3]%nat;
      output ← reshape output [B; L; -1];
      out ← Linear (n_heads args * head_dim args) (dim args) output;
      Ok (out, (keys, values))
  | _ => Raise ValueError
  end.

Definition FeedForward_call (args : ModelArgs) (x : shape) : result shape :=
  a ← Linear (dim args) (hidden_dim args) x;
  b ← Linear (dim args) (hidden_dim args) x;
  g ← broadcast a b;
  Linear (hidden_dim args) (dim args) g.

Definition TransformerBlock_call (args : ModelArgs) (x : shape)
    (mask : option shape) (cache : option KVCacheEntry)
    : result (shape * KVCacheEntry) :=
  n ← RMSNorm_call (dim args) x;
  '(r, cache) ← Attention_call args n mask cache;
  h ← broadcast x r;
  n ← RMSNorm_call (dim args) h;
  r ← FeedForward_call args n;
  out ← broadcast h r;
  Ok (out, cache).

(** [Llama.generate] up to the first [yield]: the shape of [y] and the
    list [cache]. *)
Definition generate_prompt (args : ModelArgs) (x : shape)
    : result (list KVCacheEntry * shape) :=
  let cache := [] in
  L ← match x with
      | [_; L] => Ok L
      | _ => Raise IndexError
      end;
  let mask := [L; L] in
  let x := Embedding (dim args) x in
  '(x, cache) ←
    foldl (fun acc _ =>
             '(x, cache) ← acc;
             '(x, c) ← TransformerBlock_call args x (Some mask) None;
             Ok (x, cache ++ [c]))
          (Ok (x, cache)) (replicate (Z.to_nat (n_layers args)) tt);
  x ← RMSNorm_call (dim args) x;
  x ← last_position x;
  y ← Linear (dim args) (vocab_size args) x;
  (* sample: argmax or categorical over the last axis *)
  match rev y with
  | _ :: batch => Ok (cache, rev batch)
  | [] => Raise ValueError
  end.

(** One turn of the [while True] loop, from the shape of [y] and the list
    [cache] to the next ones. *)
Definition generate_step (args : ModelArgs) (cache : list KVCacheEntry)
    (y : shape) : result (list KVCacheEntry * shape) :=
  x ← add_axis1 y;
  let x := Embedding (dim args) x in
  '(x, cache) ←
    foldl (fun acc i =>
             '(x, cache) ← acc;
             if (Z.of_nat i <? n_layers args)
             then match cache !! i with
                  | Some c =>
                      '(x, c) ← TransformerBlock_call args x None (Some c);
                      Ok (x, <[i := c]> cache)
                  | None => Raise IndexError
                  end
             else Raise IndexError)
          (Ok (x, cache)) (seq 0 (length cache));
  x ← RMSNorm_call (dim args) x;
  x ← last_position x;
  y ← Linear (dim args) (vocab_size args) x;
  match rev y with
  | _ :: batch => Ok (cache, rev batch)
  | [] => Raise ValueError
  end.

(** [k] turns of the loop. *)
Fixpoint generate_steps (args : ModelArgs) (k : nat)
    (cache : list KVCacheEntry) (y : shape)
    : result (list KVCacheEntry * shape) :=
  match k with
  | O => Ok (cache, y)
  | S k =>
      '(cache, y) ← generate_step args cache y;
      generate_steps args k cache y
  end.

End Shapes.

(** The shapes of a small model with grouped-query attention: four query
    heads on two key/value heads. *)
Module ShapesExample.

Definition args : ModelArgs :=
  {| dim := 8; n_layers := 2; head_dim := 2; hidden_dim := 16; n_heads := 4;
     n_kv_heads := 2; norm_eps := 1 # 100000; vocab_size := 32;
     rope_theta := 10000; rope_traditional := true |}.

End ShapesExample.

(** What the claims about shapes are stated with. *)
Module ShapesSpec.
Import Shapes.

(** The configurations on which the forward pass goes through: positive
    head counts and head size, and the query heads split evenly over the
    key/value heads (the invariant of [ModelConfig]). *)
Definition well_formed (args : ModelArgs) : Prop :=
  0 < head_dim args /\ 0 < n_kv_heads args /\ 0 < n_heads args /\
  n_heads args mod n_kv_heads args = 0.

(** The shape of the keys and of the values of a layer whose cache spans
    [seq_len] positions. *)
Definition cache_shape (args : ModelArgs) (B seq_len : Z) : KVCacheEntry :=
  ([B; n_heads args; seq_len; head_dim args],
   [B; n_heads args; seq_len; head_dim args]).

(** The cache entry returned by [Attention] has [n_kv_heads] as its second
    axis. *)
Definition kv_heads_axis (args : ModelArgs) (x : shape) (mask : option shape)
    (cache : option KVCacheEntry) : Prop :=
  forall out keys values,
    Attention_call args x mask cache = Ok (out, (keys, values)) ->
    keys !! 1%nat = Some (n_kv_heads args) /\
    values !! 1%nat = Some (n_kv_heads args).

End ShapesSpec.
(** * Properties *)

Lemma bind_ok_inv {A B} (m : result A) (k : A -> result B) (b : B) :
  (m ≫= k) = Ok b -> exists a, m = Ok a /\ k a = Ok b.
Proof. destruct m as [a|e]; simpl; [eauto | discriminate]. Qed.

Section LoaderFacts.
Import Loader.

Lemma contains_true {V} (d : gmap string V) k :
  contains d k = true <-> is_Some (d !! k).
Proof. unfold contains. apply bool_decide_eq_true. Qed.

Lemma contains_false {V} (d : gmap string V) k :
  contains d k = false <-> d !! k = None.
Proof.
  unfold contains. rewrite bool_decide_eq_false. symmetry. apply eq_None_not_Some.
Qed.

Lemma getitem_ok {V} (d : gmap string V) k v :
  getitem d k = Ok v <-> d !! k = Some v.
Proof.
  unfold getitem. destruct (d !! k); split; intros H; congruence.
Qed.

Lemma shape_at_first a d : shape_at a 0 = Ok d <-> shape a !! 0%nat = Some d.
Proof.
  unfold shape_at. simpl. destruct (shape a) as [|x l]; simpl;
    split; intros H; congruence.
Qed.

Lemma shape_at_last a d : shape_at a (-1) = Ok d <-> last (shape a) = Some d.
Proof.
  unfold shape_at. simpl.
  destruct (shape a) as [|x l _] using rev_ind; simpl.
  - split; intros H; discriminate.
  - rewrite last_snoc, length_app. simpl.
    replace (Z.to_nat (-1 + Z.of_nat (length l + 1))) with (length l) by lia.
    destruct (Z.ltb_spec (-1 + Z.of_nat (length l + 1)) 0) as [Hlt|_];
      [lia|].
    rewrite lookup_app_r, Nat.sub_diag by lia. simpl.
    split; intros H; congruence.
Qed.

End LoaderFacts.

Section SanitizeConfig.

Context {Fl : Type} {PF : PyFloat Fl}.
Import Loader.

Local Abbreviation value := (@value Fl).

Variables (config : gmap string value) (weights : gmap string array).

(** [//] on two integers is the floor of the quotient. *)
Lemma floordiv_int a b d :
  floordiv (VInt a : value) (VInt b) = Ok d -> b <> 0 /\ d = VInt (a / b).
Proof.
  unfold floordiv. cbn [as_number].
  destruct (Z.eqb_spec b 0); [done|]. by intros [= <-].
Qed.

(** [if k not in c: c[k] = v], read at any key [j]. *)
Lemma lookup_setdefault (c : gmap string value) k v j :
  (if contains c k then c else <[k:=v]> c) !! j =
  if decide (k = j) then Some (default v (c !! k)) else c !! j.
Proof.
  destruct (contains c k) eqn:E.
  - apply contains_true in E as [x Hx].
    case_decide; subst; rewrite ?Hx; done.
  - apply contains_false in E.
    case_decide; subst; rewrite ?E; simplify_map_eq; done.
Qed.

(** The successive dictionaries of a successful run of [sanitize_config]. *)
Lemma sanitize_config_stages config' :
  sanitize_config config weights = Ok config' ->
  exists n_heads c1 c2 c3 c4 neg,
    config !! "n_heads"%string = Some n_heads /\
    let c0 := delete "model_type"%string config in
    c1 = (if contains c0 "n_kv_heads" then c0
          else <["n_kv_heads"%string := n_heads]> c0) /\
    (if contains c1 "head_dim" then c2 = c1
     else exists dim d, c1 !! "dim"%string = Some dim /\
            floordiv dim n_heads = Ok d /\
            c2 = <["head_dim"%string := d]> c1) /\
    (if contains c2 "hidden_dim" then c3 = c2
     else exists w d,
            weights !! "layers.0.feed_forward.w1.weight"%string = Some w /\
            shape w !! 0%nat = Some d /\
            c3 = <["hidden_dim"%string := VInt d]> c2) /\
    lt_zero (get c3 "vocab_size" (VInt (-1))) = Ok neg /\
    (if neg : bool
     then exists w d, weights !! "output.weight"%string = Some w /\
            last (shape w) = Some d /\
            c4 = <["vocab_size"%string := VInt d]> c3
     else c4 = c3) /\
    config' =
      delete "ffn_dim_multiplier"%string
        (delete "multiple_of"%string
           (if contains c4 "rope_theta" then c4
            else <["rope_theta"%string := VInt 10000]> c4)).
Proof.
  unfold sanitize_config, pop. intros H.
  apply bind_ok_inv in H as (n_heads & Hn & H).
  apply getitem_ok in Hn. rewrite lookup_delete_ne in Hn by done.
  apply bind_ok_inv in H as (c2 & H2 & H).
  apply bind_ok_inv in H as (c3 & H3 & H).
  apply bind_ok_inv in H as (neg & Hneg & H).
  apply bind_ok_inv in H as (c4 & H4 & H).
  simpl in H. injection H as <-.
  eexists n_heads, _, c2, c3, c4, neg.
  split; [exact Hn|]. cbv zeta. split; [reflexivity|].
  repeat split; try assumption.
  - destruct (contains _ "head_dim"); [congruence|].
    apply bind_ok_inv in H2 as (dim & Hd & H2).
    apply bind_ok_inv in H2 as (d & Hq & H2).
    apply getitem_ok in Hd. exists dim, d. repeat split; congruence.
  - destruct (contains c2 "hidden_dim"); [congruence|].
    apply bind_ok_inv in H3 as (w & Hw & H3).
    apply bind_ok_inv in H3 as (d & Hd & H3).
    apply getitem_ok in Hw. apply shape_at_first in Hd.
    exists w, d. repeat split; congruence.
  - destruct neg; [|congruence].
    apply bind_ok_inv in H4 as (w & Hw & H4).
    apply bind_ok_inv in H4 as (d & Hd & H4).
    apply getitem_ok in Hw. apply shape_at_last in Hd.
    exists w, d. repeat split; congruence.
Qed.

(** The optional fields after a successful run. *)
Lemma sanitize_config_defaults config' :
  sanitize_config config weights = Ok config' ->
  exists n_heads,
    config !! "n_heads"%string = Some n_heads /\
    config' !! "n_kv_heads"%string =
      Some (default n_heads (config !! "n_kv_heads"%string)) /\
    match config !! "head_dim"%string with
    | Some v => config' !! "head_dim"%string = Some v
    | None => exists dim d,
        config !! "dim"%string = Some dim /\
        floordiv dim n_heads = Ok d /\
        config' !! "head_dim"%string = Some d
    end /\
    match config !! "hidden_dim"%string with
    | Some v => config' !! "hidden_dim"%string = Some v
    | None => exists w d,
        weights !! "layers.0.feed_forward.w1.weight"%string = Some w /\
        shape w !! 0%nat = Some d /\
        config' !! "hidden_dim"%string = Some (VInt d)
    end /\
    config' !! "rope_theta"%string =
      Some (default (VInt 10000) (config !! "rope_theta"%string)).
Proof.
  intros H.
  destruct (sanitize_config_stages _ H)
    as (n_heads & c1 & c2 & c3 & c4 & neg & Hn & H1 & H2 & H3 & _ & H4 & ->).
  cbv zeta in H1.
  assert (L1 : forall j, c1 !! j =
            if decide ("n_kv_heads"%string = j)
            then Some (default n_heads (config !! "n_kv_heads"%string))
            else delete "model_type"%string config !! j).
  { intros j. rewrite H1, lookup_setdefault.
    case_decide; [subst j; rewrite lookup_delete_ne by done|]; done. }
  assert (L4 : forall j, j <> "vocab_size"%string -> c4 !! j = c3 !! j).
  { intros j Hj. destruct neg; [|congruence].
    destruct H4 as (w & d & _ & _ & ->). by rewrite lookup_insert_ne. }
  exists n_heads. split; [exact Hn|].
  rewrite !lookup_delete_ne by done. rewrite !lookup_setdefault.
  repeat split.
  - rewrite decide_False by done. rewrite L4 by done.
    assert (c3 !! "n_kv_heads"%string = c2 !! "n_kv_heads"%string) as ->.
    { destruct (contains c2 "hidden_dim"); [congruence|].
      destruct H3 as (w & d & _ & _ & ->). by rewrite lookup_insert_ne. }
    assert (c2 !! "n_kv_heads"%string = c1 !! "n_kv_heads"%string) as ->.
    { destruct (contains c1 "head_dim"); [congruence|].
      destruct H2 as (w & d & _ & _ & ->). by rewrite lookup_insert_ne. }
    rewrite L1. by rewrite decide_True.
  - rewrite decide_False by done. rewrite L4 by done.
    assert (c3 !! "head_dim"%string = c2 !! "head_dim"%string) as ->.
    { destruct (contains c2 "hidden_dim"); [congruence|].
      destruct H3 as (w & d & _ & _ & ->). by rewrite lookup_insert_ne. }
    assert (E1 : c1 !! "head_dim"%string = config !! "head_dim"%string).
    { rewrite L1, decide_False by done. by rewrite lookup_delete_ne. }
    destruct (contains c1 "head_dim") eqn:E.
    + subst c2. apply contains_true in E as [v Hv].
      rewrite <- E1, Hv. done.
    + apply contains_false in E. rewrite <- E1, E.
      destruct H2 as (dim & d & Hdim & Hq & ->).
      exists dim, d. rewrite L1, decide_False in Hdim by done.
      rewrite lookup_delete_ne in Hdim by done.
      repeat split; [done..|]. by rewrite lookup_insert_eq.
  - rewrite decide_False by done. rewrite L4 by done.
    assert (E2 : c2 !! "hidden_dim"%string = config !! "hidden_dim"%string).
    { transitivity (c1 !! "hidden_dim"%string).
      - destruct (contains c1 "head_dim"); [congruence|].
        destruct H2 as (w & d & _ & _ & ->). by rewrite lookup_insert_ne.
      - rewrite L1, decide_False by done. by rewrite lookup_delete_ne. }
    destruct (contains c2 "hidden_dim") eqn:E.
    + subst c3. apply contains_true in E as [v Hv].
      rewrite <- E2, Hv. done.
    + apply contains_false in E. rewrite <- E2, E.
      destruct H3 as (w & d & Hw & Hd & ->).
      exists w, d. repeat split; [done..|]. by rewrite lookup_insert_eq.
  - rewrite decide_True by done. f_equal. f_equal.
    rewrite L4 by done.
    transitivity (c2 !! "rope_theta"%string).
    { destruct (contains c2 "hidden_dim"); [congruence|].
      destruct H3 as (w & d & _ & _ & ->). by rewrite lookup_insert_ne. }
    transitivity (c1 !! "rope_theta"%string).
    { destruct (contains c1 "head_dim"); [congruence|].
      destruct H2 as (w & d & _ & _ & ->). by rewrite lookup_insert_ne. }
    rewrite L1, decide_False by done. by rewrite lookup_delete_ne.
Qed.

(** [vocab_size] after a successful run. *)
Lemma sanitize_config_vocab config' :
  sanitize_config config weights = Ok config' ->
  let from_weights :=
    exists w d, weights !! "output.weight"%string = Some w /\
      last (shape w) = Some d /\
      config' !! "vocab_size"%string = Some (VInt d) in
  match config !! "vocab_size"%string with
  | None => from_weights
  | Some v => exists neg, lt_zero v = Ok neg /\
      if neg : bool then from_weights
      else config' !! "vocab_size"%string = Some v
  end.
Proof.
  intros H.
  destruct (sanitize_config_stages _ H)
    as (n_heads & c1 & c2 & c3 & c4 & neg & Hn & H1 & H2 & H3 & Hneg & H4 & ->).
  cbv zeta in H1 |- *.
  assert (E : c3 !! "vocab_size"%string = config !! "vocab_size"%string).
  { transitivity (c2 !! "vocab_size"%string).
    { destruct (contains c2 "hidden_dim"); [congruence|].
      destruct H3 as (w & d & _ & _ & ->). by rewrite lookup_insert_ne. }
    transitivity (c1 !! "vocab_size"%string).
    { destruct (contains c1 "head_dim"); [congruence|].
      destruct H2 as (w & d & _ & _ & ->). by rewrite lookup_insert_ne. }
    rewrite H1, lookup_setdefault, decide_False by done.
    by rewrite lookup_delete_ne. }
  rewrite !lookup_delete_ne by done. rewrite lookup_setdefault.
  rewrite decide_False by done.
  unfold get in Hneg. rewrite E in Hneg.
  destruct (config !! "vocab_size"%string) as [v|].
  - exists neg. split; [exact Hneg|]. destruct neg.
    + destruct H4 as (w & d & Hw & Hd & ->). exists w, d.
      repeat split; [done..|]. by rewrite lookup_insert_eq.
    + subst c4. exact E.
  - simpl in Hneg. injection Hneg as <-.
    destruct H4 as (w & d & Hw & Hd & ->). exists w, d.
    repeat split; [done..|]. by rewrite lookup_insert_eq.
Qed.

(** C6. When [sanitize_config] returns, each optional field missing from
    the loaded config holds its default in the result -- [n_kv_heads] is
    [n_heads], [head_dim] is [dim // n_heads] (for two integers [a] and
    [b]: the integer [a / b] rounded down, with [b] not zero), [hidden_dim]
    is the first dimension of [layers.0.feed_forward.w1.weight],
    [rope_theta] is 10000 -- and each of these fields already present
    keeps its value. *)
Theorem sanitize_config_fills_defaults config' :
  sanitize_config config weights = Ok config' ->
  exists n_heads,
    config !! "n_heads"%string = Some n_heads /\
    config' !! "n_kv_heads"%string =
      Some (default n_heads (config !! "n_kv_heads"%string)) /\
    match config !! "head_dim"%string with
    | Some v => config' !! "head_dim"%string = Some v
    | None => exists dim d,
        config !! "dim"%string = Some dim /\
        floordiv dim n_heads = Ok d /\
        config' !! "head_dim"%string = Some d /\
        forall a b, dim = VInt a -> n_heads = VInt b ->
          b <> 0 /\ d = VInt (a / b)
    end /\
    match config !! "hidden_dim"%string with
    | Some v => config' !! "hidden_dim"%string = Some v
    | None => exists w d,
        weights !! "layers.0.feed_forward.w1.weight"%string = Some w /\
        shape w !! 0%nat = Some d /\
        config' !! "hidden_dim"%string = Some (VInt d)
    end /\
    config' !! "rope_theta"%string =
      Some (default (VInt 10000) (config !! "rope_theta"%string)).
Proof.
  intros H0.
  destruct (sanitize_config_defaults _ H0)
    as (n_heads & Hn & Hkv & Hhd & Hhid & Hrope).
  exists n_heads. split; [done|]. split; [done|].
  split; [|by split].
  destruct (config !! "head_dim"%string) as [v|]; [done|].
  destruct Hhd as (dim & d & Hdim & Hq & Hhd). exists dim, d.
  split; [done|]. split; [done|]. split; [done|].
  intros a b -> ->. by apply floordiv_int in Hq.
Qed.

(** C9. When [sanitize_config] returns: a config without [vocab_size], or
    with a negative one, gets the last dimension of [output.weight]; a
    non-negative [vocab_size] is kept.  Negative is [v < 0] as Python
    decides it: on an integer its sign, on [True] and [False] never, on a
    float the comparison of floats. *)
Theorem sanitize_config_vocab_size config' :
  sanitize_config config weights = Ok config' ->
  let from_weights :=
    exists w d, weights !! "output.weight"%string = Some w /\
      last (shape w) = Some d /\
      config' !! "vocab_size"%string = Some (VInt d) in
  match config !! "vocab_size"%string with
  | None => from_weights
  | Some v =>
      exists neg,
        match v with
        | VInt z => neg = (z <? 0)
        | VBool _ => neg = false
        | VFloat x => neg = float_lt_zero x
        | _ => False
        end /\
        if neg : bool then from_weights
        else config' !! "vocab_size"%string = Some v
  end.
Proof.
  intros H0. pose proof (sanitize_config_vocab _ H0) as Hv. cbv zeta in *.
  destruct (config !! "vocab_size"%string) as [v|]; [|done].
  destruct Hv as (neg & Hneg & Hv). exists neg. split; [|done].
  unfold lt_zero in Hneg.
  destruct v as [|[]| | | | |]; cbn [as_number] in Hneg; try done;
    by injection Hneg as <-.
Qed.


End SanitizeConfig.
Lemma sanitize_config_example :
  Loader.sanitize_config (H := LoaderExample.exact_float)
    LoaderExample.config LoaderExample.weights
  = Ok LoaderExample.sanitized.
Proof. vm_compute. reflexivity. Qed.

Lemma sanitize_config_fills_defaults_witness :
  exists c',
    Loader.sanitize_config (H := LoaderExample.exact_float)
      LoaderExample.config LoaderExample.weights = Ok c' /\
    c' !! "n_kv_heads"%string = Some (Loader.VInt 8) /\
    c' !! "head_dim"%string = Some (Loader.VInt (4096 / 32)) /\
    c' !! "hidden_dim"%string = Some (Loader.VInt 11008) /\
    c' !! "rope_theta"%string = Some (Loader.VInt 10000).
Proof.
  exists LoaderExample.sanitized.
  assert (H : Loader.sanitize_config (H := LoaderExample.exact_float)
                LoaderExample.config LoaderExample.weights
              = Ok LoaderExample.sanitized) by (vm_compute; reflexivity).
  split; [exact H|].
  destruct (sanitize_config_fills_defaults _ _ _ H)
    as (n_heads & Hn & Hkv & Hhd & Hhid & Hrope).
  vm_compute in Hn. injection Hn as <-.
  split; [exact Hkv|].
  split; [|split; [|exact Hrope]].
  - change (LoaderExample.config !! "head_dim"%string)
      with (@None (@Loader.value Q)) in Hhd.
    destruct Hhd as (dim & d & Hdim & _ & Hhd & Hpin).
    vm_compute in Hdim. injection Hdim as <-.
    destruct (Hpin 4096 32 eq_refl eq_refl) as [_ ->]. exact Hhd.
  - change (LoaderExample.config !! "hidden_dim"%string)
      with (@None (@Loader.value Q)) in Hhid.
    destruct Hhid as (w & d & Hw & Hd & Hhid).
    vm_compute in Hw. injection Hw as <-.
    vm_compute in Hd. injection Hd as <-. exact Hhid.
Defined.

Lemma sanitize_config_vocab_size_witness :
  exists c',
    Loader.sanitize_config (H := LoaderExample.exact_float)
      LoaderExample.config LoaderExample.weights = Ok c' /\
    c' !! "vocab_size"%string = Some (Loader.VInt 4096).
Proof.
  exists LoaderExample.sanitized.
  assert (H : Loader.sanitize_config (H := LoaderExample.exact_float)
                LoaderExample.config LoaderExample.weights
              = Ok LoaderExample.sanitized) by (vm_compute; reflexivity).
  split; [exact H|].
  pose proof (sanitize_config_vocab_size _ _ _ H) as Hv. cbv zeta in Hv.
  change (LoaderExample.config !! "vocab_size"%string)
    with (Some (Loader.VInt (-1) : @Loader.value Q)) in Hv.
  destruct Hv as (neg & -> & Hv).
  destruct Hv as (w & d & Hw & Hd & Hv).
  vm_compute in Hw. injection Hw as <-.
  vm_compute in Hd. injection Hd as <-. exact Hv.
Defined.
(** ** [sanitize_config]: what it leaves alone, and running it twice *)

Section SanitizeFrame.

Context {Fl : Type} {PF : PyFloat Fl}.
Import Loader.

Local Abbreviation value := (@value Fl).

Variables (config : gmap string value) (weights : gmap string array).

(** [if k not in c: c[k] = v] as one assignment. *)
Lemma setdefault_insert (c : gmap string value) k v :
  (if contains c k then c else <[k:=v]> c) = <[k := default v (c !! k)]> c.
Proof.
  destruct (contains c k) eqn:E.
  - apply contains_true in E as [x Hx]. rewrite Hx. cbn.
    by rewrite insert_id.
  - apply contains_false in E. by rewrite E.
Qed.

(** The dictionary a successful run of [sanitize_config] returns, as six
    assignments on the loaded one between the removals. *)
Lemma sanitize_config_normal_form config' :
  sanitize_config config weights = Ok config' ->
  exists n_heads hd hid vs,
    config !! "n_heads"%string = Some n_heads /\
    (config !! "head_dim"%string = Some hd \/
     config !! "head_dim"%string = None /\
     exists dim, config !! "dim"%string = Some dim /\
       floordiv dim n_heads = Ok hd) /\
    (config !! "hidden_dim"%string = Some hid \/
     config !! "hidden_dim"%string = None /\
     exists w d,
       weights !! "layers.0.feed_forward.w1.weight"%string = Some w /\
       shape w !! 0%nat = Some d /\ hid = VInt d) /\
    (config !! "vocab_size"%string = Some vs /\ lt_zero vs = Ok false \/
     lt_zero (default (VInt (-1)) (config !! "vocab_size"%string)) = Ok true /\
     exists w d, weights !! "output.weight"%string = Some w /\
       last (shape w) = Some d /\ vs = VInt d) /\
    config' =
      delete "ffn_dim_multiplier"%string
        (delete "multiple_of"%string
           (<["rope_theta"%string :=
                default (VInt 10000) (config !! "rope_theta"%string)]>
              (<["vocab_size"%string := vs]>
                 (<["hidden_dim"%string := hid]>
                    (<["head_dim"%string := hd]>
                       (<["n_kv_heads"%string :=
                            default n_heads (config !! "n_kv_heads"%string)]>
                          (delete "model_type"%string config))))))).
Proof.
  intros H.
  destruct (sanitize_config_stages _ _ _ H)
    as (n_heads & c1 & c2 & c3 & c4 & neg & Hn & H1 & H2 & H3 & Hneg & H4 & ->).
  cbv zeta in H1. rewrite setdefault_insert in H1.
  rewrite lookup_delete_ne in H1 by done.
  rewrite setdefault_insert.
  assert (L1 : forall j, j <> "n_kv_heads"%string -> j <> "model_type"%string ->
            c1 !! j = config !! j).
  { intros j Hj Hj'. subst c1. rewrite lookup_insert_ne by done.
    by rewrite lookup_delete_ne. }
  assert (exists hd, c2 = <["head_dim"%string := hd]> c1 /\
    (config !! "head_dim"%string = Some hd \/
     config !! "head_dim"%string = None /\
     exists dim, config !! "dim"%string = Some dim /\
       floordiv dim n_heads = Ok hd)) as (hd & -> & Hhd).
  { destruct (contains c1 "head_dim") eqn:E.
    - apply contains_true in E as [v Hv]. exists v. subst c2.
      split; [symmetry; by apply insert_id|]. left. by rewrite <- L1.
    - apply contains_false in E. destruct H2 as (dim & d & Hdim & Hq & ->).
      exists d. split; [done|]. right. rewrite <- !L1 by done. eauto. }
  assert (L2 : forall j, j <> "n_kv_heads"%string -> j <> "model_type"%string ->
            j <> "head_dim"%string ->
            (<["head_dim"%string := hd]> c1) !! j = config !! j).
  { intros j ? ? ?. rewrite lookup_insert_ne by done. by apply L1. }
  assert (exists hid,
    c3 = <["hidden_dim"%string := hid]> (<["head_dim"%string := hd]> c1) /\
    (config !! "hidden_dim"%string = Some hid \/
     config !! "hidden_dim"%string = None /\
     exists w d,
       weights !! "layers.0.feed_forward.w1.weight"%string = Some w /\
       shape w !! 0%nat = Some d /\ hid = VInt d)) as (hid & -> & Hhid).
  { destruct (contains _ "hidden_dim") eqn:E.
    - apply contains_true in E as [v Hv]. exists v. subst c3.
      split; [symmetry; by apply insert_id|]. left. by rewrite <- L2.
    - apply contains_false in E. destruct H3 as (w & d & Hw & Hd & ->).
      exists (VInt d). split; [done|]. right. rewrite <- L2 by done. eauto 6. }
  set (c3 := <["hidden_dim"%string := hid]> _) in *.
  assert (L3 : forall j, j <> "n_kv_heads"%string -> j <> "model_type"%string ->
            j <> "head_dim"%string -> j <> "hidden_dim"%string ->
            c3 !! j = config !! j).
  { intros j ? ? ? ?. subst c3. rewrite lookup_insert_ne by done.
    by apply L2. }
  assert (exists vs, c4 = <["vocab_size"%string := vs]> c3 /\
    (config !! "vocab_size"%string = Some vs /\ lt_zero vs = Ok false \/
     lt_zero (default (VInt (-1)) (config !! "vocab_size"%string)) = Ok true /\
     exists w d, weights !! "output.weight"%string = Some w /\
       last (shape w) = Some d /\ vs = VInt d)) as (vs & -> & Hvs).
  { unfold get in Hneg. rewrite L3 in Hneg by done. destruct neg.
    - destruct H4 as (w & d & Hw & Hd & ->). exists (VInt d).
      split; [done|]. right. split; [|by eauto].
      by destruct (config !! "vocab_size"%string).
    - subst c4. destruct (config !! "vocab_size"%string) as [v|] eqn:Ev;
        [|done].
      exists v. split; [|by left].
      symmetry. apply insert_id. by rewrite L3. }
  exists n_heads, hd, hid, vs. repeat split; [done..|].
  rewrite lookup_insert_ne by done. rewrite L3 by done.
  subst c3 c1. done.
Qed.

(** X7. What [sanitize_config] leaves alone: a successful run removes
    [model_type], [multiple_of] and [ffn_dim_multiplier], and every key
    other than these and the five it may fill ([n_kv_heads], [head_dim],
    [hidden_dim], [vocab_size], [rope_theta]) holds what it held, or
    nothing, as before. *)
Theorem sanitize_config_frame config' :
  sanitize_config config weights = Ok config' ->
  (forall j, j ∈ ["model_type"; "multiple_of"; "ffn_dim_multiplier"]%string ->
             config' !! j = None) /\
  (forall j, j ∉ ["model_type"; "multiple_of"; "ffn_dim_multiplier";
                  "n_kv_heads"; "head_dim"; "hidden_dim"; "vocab_size";
                  "rope_theta"]%string ->
             config' !! j = config !! j).
Proof.
  intros H.
  destruct (sanitize_config_normal_form _ H)
    as (n_heads & hd & hid & vs & _ & _ & _ & _ & ->).
  split.
  - intros j Hj. rewrite !elem_of_cons, elem_of_nil in Hj.
    destruct Hj as [->|[->|[->|[]]]].
    + rewrite !lookup_delete_ne, !lookup_insert_ne by done.
      by rewrite lookup_delete_eq.
    + rewrite lookup_delete_ne by done. by rewrite lookup_delete_eq.
    + by rewrite lookup_delete_eq.
  - intros j Hj. rewrite !not_elem_of_cons in Hj.
    destruct Hj as (? & ? & ? & ? & ? & ? & ? & ? & _).
    rewrite !lookup_delete_ne, !lookup_insert_ne by done.
    by rewrite lookup_delete_ne.
Qed.

(** X8. [sanitize_config] is idempotent: run on its own result, with the same
    weights, it returns this result unchanged. *)
Theorem sanitize_config_idempotent config' :
  sanitize_config config weights = Ok config' ->
  sanitize_config config' weights = Ok config'.
Proof.
  intros H.
  destruct (sanitize_config_normal_form _ H)
    as (n_heads & hd & hid & vs & Hn & _ & _ & Hvs & E).
  assert (Ln : config' !! "n_heads"%string = Some n_heads).
  { rewrite E. rewrite !lookup_delete_ne, !lookup_insert_ne by done.
    by rewrite lookup_delete_ne. }
  assert (Lkv : config' !! "n_kv_heads"%string
                = Some (default n_heads (config !! "n_kv_heads"%string))).
  { rewrite E. rewrite !lookup_delete_ne, !lookup_insert_ne by done.
    by rewrite lookup_insert_eq. }
  assert (Lhd : config' !! "head_dim"%string = Some hd).
  { rewrite E. rewrite !lookup_delete_ne, !lookup_insert_ne by done.
    by rewrite lookup_insert_eq. }
  assert (Lhid : config' !! "hidden_dim"%string = Some hid).
  { rewrite E. rewrite !lookup_delete_ne, !lookup_insert_ne by done.
    by rewrite lookup_insert_eq. }
  assert (Lvs : config' !! "vocab_size"%string = Some vs).
  { rewrite E. rewrite !lookup_delete_ne, !lookup_insert_ne by done.
    by rewrite lookup_insert_eq. }
  assert (Lrt : is_Some (config' !! "rope_theta"%string)).
  { rewrite E. rewrite !lookup_delete_ne by done.
    rewrite lookup_insert_eq. by eexists. }
  assert (Lmt : config' !! "model_type"%string = None).
  { rewrite E. rewrite !lookup_delete_ne, !lookup_insert_ne by done.
    by rewrite lookup_delete_eq. }
  assert (Lmo : config' !! "multiple_of"%string = None).
  { rewrite E. rewrite lookup_delete_ne by done. by rewrite lookup_delete_eq. }
  assert (Lff : config' !! "ffn_dim_multiplier"%string = None).
  { rewrite E. by rewrite lookup_delete_eq. }
  clear E. unfold sanitize_config, pop.
  rewrite (delete_id config') by done.
  rewrite (proj2 (getitem_ok _ _ _) Ln). cbn [mbind result_bind Py.bind].
  rewrite (proj2 (contains_true config' "n_kv_heads")) by (by eexists).
  rewrite (proj2 (contains_true config' "head_dim")) by (by eexists).
  cbn [mbind result_bind Py.bind].
  rewrite (proj2 (contains_true config' "hidden_dim")) by (by eexists).
  cbn [mbind result_bind Py.bind].
  unfold get. rewrite Lvs.
  assert (exists c, (lt_zero vs ≫= λ neg : bool,
     (if neg
      then getitem weights "output.weight" ≫= λ w,
           shape_at w (-1) ≫= λ d,
           Ok (<["vocab_size"%string := VInt d]> config')
      else Ok config') ≫= λ c, Ok c) = Ok c /\ c = config') as (c & Hc & ->).
  { destruct Hvs as [[_ ->]|[_ (w & d & Hw & Hd & ->)]];
      cbn [mbind result_bind Py.bind]; [by eauto|].
    cbn [lt_zero as_number]. cbn [mbind result_bind Py.bind].
    destruct (d <? 0); cbn [mbind result_bind Py.bind]; [|by eauto].
    rewrite (proj2 (getitem_ok _ _ _) Hw). cbn [mbind result_bind Py.bind].
    rewrite (proj2 (shape_at_last _ _) Hd). cbn [mbind result_bind Py.bind].
    rewrite insert_id by done. by eauto. }
  revert Hc. destruct (lt_zero vs) as [neg|e]; [|done].
  cbn [mbind result_bind Py.bind].
  destruct (if neg then _ else _) as [c|e]; [|done].
  cbn [mbind result_bind Py.bind]. intros [= ->].
  rewrite (proj2 (contains_true config' "rope_theta")) by done.
  cbn [foldl]. rewrite (delete_id config' "multiple_of") by done.
  by rewrite (delete_id config') by done.
Qed.


End SanitizeFrame.

Section LoadConfig.

Context {Fl : Type} {PF : PyFloat Fl}.
Import Loader LoadModel.

Local Abbreviation value := (@value Fl).

Lemma required_ok (kwargs : gmap string value) k v :
  required kwargs k = Ok v <-> kwargs !! k = Some v.
Proof. unfold required. destruct (kwargs !! k); split; congruence. Qed.

(** X10. What [load_model] takes from [config.json]: it gets to the arguments
    of [Llama] only if every key of the config is a field of [ModelArgs]
    or one of [model_type], [multiple_of], [ffn_dim_multiplier] and
    [quantization] (any other key is a [TypeError]) and the config has
    [dim], [n_layers], [norm_eps] and [n_heads], which are passed on as
    they are; [rope_traditional] is [True] unless the config says
    otherwise. *)
Theorem load_config_inv (config : gmap string value)
    (weights : gmap string array) args quantization :
  load_config config weights = Ok (args, quantization) ->
  (forall k, is_Some (config !! k) -> k ∈ fields ++ dropped) /\
  config !! "dim"%string = Some (dim args) /\
  config !! "n_layers"%string = Some (n_layers args) /\
  config !! "norm_eps"%string = Some (norm_eps args) /\
  config !! "n_heads"%string = Some (n_heads args) /\
  rope_traditional args
  = default (VBool true) (config !! "rope_traditional"%string) /\
  quantization = default VNone (config !! "quantization"%string).
Proof.
  unfold load_config, pop. intros H.
  apply bind_ok_inv in H as (c' & Hs & H).
  apply bind_ok_inv in H as (a & Hinit & H). injection H as -> <-.
  destruct (sanitize_config_normal_form _ _ _ Hs)
    as (n_heads & hd & hid & vs & _ & _ & _ & _ & E).
  assert (L : forall j,
    j ∉ ["model_type"; "multiple_of"; "ffn_dim_multiplier"; "n_kv_heads";
         "head_dim"; "hidden_dim"; "vocab_size"; "rope_theta"]%string ->
    c' !! j = config !! j).
  { intros j Hj. rewrite !not_elem_of_cons in Hj.
    destruct Hj as (? & ? & ? & ? & ? & ? & ? & ? & _). rewrite E.
    rewrite !lookup_delete_ne, !lookup_insert_ne by done.
    by rewrite lookup_delete_ne. }
  clear E. unfold ModelArgs_init in Hinit.
  case_bool_decide as Hall; [|done].
  apply bind_ok_inv in Hinit as (v1 & H1 & Hinit).
  apply bind_ok_inv in Hinit as (v2 & H2 & Hinit).
  apply bind_ok_inv in Hinit as (v3 & H3 & Hinit).
  apply bind_ok_inv in Hinit as (v4 & H4 & Hinit).
  apply bind_ok_inv in Hinit as (v5 & H5 & Hinit).
  apply bind_ok_inv in Hinit as (v6 & H6 & Hinit).
  apply bind_ok_inv in Hinit as (v7 & H7 & Hinit).
  apply bind_ok_inv in Hinit as (v8 & H8 & Hinit).
  apply bind_ok_inv in Hinit as (v9 & H9 & Hinit).
  injection Hinit as <-. cbn.
  apply required_ok in H1, H2, H5, H7.
  rewrite lookup_delete_ne in H1, H2, H5, H7 by done.
  rewrite L in H1, H2, H5, H7
    by (rewrite !not_elem_of_cons; repeat split;
        (done || apply not_elem_of_nil)).
  unfold get. rewrite lookup_delete_ne by done.
  rewrite !L
    by (rewrite !not_elem_of_cons; repeat split;
        (done || apply not_elem_of_nil)).
  repeat split; try done.
  intros k [v Hk].
  destruct (decide (k ∈ fields ++ dropped)) as [|Hnot]; [done|exfalso].
  apply Hnot. apply elem_of_app. left.
  apply (Hall k v).
  unfold fields, dropped in Hnot. cbn [app] in Hnot.
  rewrite !not_elem_of_cons in Hnot.
  destruct Hnot as (? & ? & ? & ? & ? & ? & ? & ? & ? & ? & ? & ? & ? & ?
                    & _).
  rewrite lookup_delete_ne by done. rewrite L; [done|].
  rewrite !not_elem_of_cons. repeat split; (done || apply not_elem_of_nil).
Qed.

End LoadConfig.

Lemma sanitize_config_frame_witness :
  LoaderExample.sanitized !! "model_type"%string = None /\
  LoaderExample.sanitized !! "n_layers"%string
  = LoaderExample.config !! "n_layers"%string.
Proof.
  destruct (sanitize_config_frame (PF := LoaderExample.exact_float)
              LoaderExample.config LoaderExample.weights
              LoaderExample.sanitized) as [Hr Hk].
  - vm_compute. reflexivity.
  - split.
    + apply Hr. apply elem_of_cons. by left.
    + apply Hk. rewrite !not_elem_of_cons.
      repeat split; (discriminate || apply not_elem_of_nil).
Defined.

Lemma sanitize_config_idempotent_witness :
  Loader.sanitize_config (H := LoaderExample.exact_float)
    LoaderExample.sanitized LoaderExample.weights
  = Ok LoaderExample.sanitized.
Proof.
  apply (sanitize_config_idempotent (PF := LoaderExample.exact_float)
           LoaderExample.config
           LoaderExample.weights LoaderExample.sanitized).
  vm_compute. reflexivity.
Defined.

Lemma load_config_inv_witness :
  exists args,
    LoadModel.load_config (H := LoaderExample.exact_float)
      LoaderExample.config LoaderExample.weights
    = Ok (args, Loader.VNone) /\
    LoaderExample.config !! "n_heads"%string = Some (LoadModel.n_heads args) /\
    LoadModel.rope_traditional args = Loader.VBool true.
Proof.
  assert (Hrun : exists args,
    LoadModel.load_config (H := LoaderExample.exact_float)
      LoaderExample.config LoaderExample.weights
    = Ok (args, Loader.VNone)) by (vm_compute; eexists; reflexivity).
  destruct Hrun as [args Hrun]. exists args. split; [exact Hrun|].
  destruct (load_config_inv (PF := LoaderExample.exact_float)
              LoaderExample.config LoaderExample.weights args
              Loader.VNone Hrun) as (_ & _ & _ & _ & Hn & Hr & _).
  split; [exact Hn|exact Hr].
Defined.
(** ** The forward pass: lengths, and the loops over the layers *)

(** Lengths are compared on plain lists. *)
Ltac list_types :=
  unfold Forward.KVCacheEntry, Forward.tensor3, Forward.matrix,
    Forward.vector in *.

Section ForwardFacts.

Context {F : Type} `{Backend F}.
Import Forward Layers.

Local Abbreviation vector := (@vector F).
Local Abbreviation matrix := (@matrix F).
Local Abbreviation tensor3 := (@tensor3 F).
Local Abbreviation KVCacheEntry := (@KVCacheEntry F).
Local Abbreviation Attention := (@Attention F).
Local Abbreviation TransformerBlock := (@TransformerBlock F).
Local Abbreviation Llama := (@Llama F).
Local Abbreviation generator := (@generator F).

Lemma length_merge_heads L (a : tensor3) : length (merge_heads L a) = L.
Proof. unfold merge_heads. by rewrite length_map, length_seq. Qed.

Lemma length_Attention_call self x mask cache :
  length (Attention_call self x mask cache).1 = length x.
Proof.
  unfold Attention_call. destruct cache as [[kc vc]|]; simpl;
    by rewrite length_map, length_merge_heads.
Qed.

Lemma length_TransformerBlock_call self x mask cache :
  length (TransformerBlock_call self x mask cache).1 = length x.
Proof.
  unfold TransformerBlock_call.
  pose proof (length_Attention_call (attention self)
                (map (RMSNorm_call (attention_norm self)) x) mask cache) as E.
  destruct (Attention_call _ _ _ _) as [r c]. simpl in *.
  rewrite length_map in E.
  rewrite !length_zip_with, length_map, !length_zip_with.
  list_types. lia.
Qed.

Lemma prompt_layers_length ls mask x :
  length (prompt_layers ls mask x).1 = length x /\
  length (prompt_layers ls mask x).2 = length ls.
Proof.
  revert x. induction ls as [|l ls IH]; intros x; cbn [prompt_layers];
    [done|].
  pose proof (length_TransformerBlock_call l x (Some mask) None) as E.
  destruct (TransformerBlock_call l x (Some mask) None) as [x' c].
  destruct (IH x') as [E1 E2].
  destruct (prompt_layers ls mask x') as [x'' cache]. simpl in *.
  list_types. split; lia.
Qed.

Lemma step_layers_length ls cache x :
  length cache = length ls ->
  length (step_layers ls cache x).1 = length x /\
  length (step_layers ls cache x).2 = length ls.
Proof.
  revert cache x. induction ls as [|l ls IH]; intros [|c cache] x Hlen;
    cbn [step_layers length] in *; try done.
  pose proof (length_TransformerBlock_call l x None (Some c)) as E.
  destruct (TransformerBlock_call l x None (Some c)) as [x' c'].
  destruct (IH cache x' ltac:(lia)) as [E1 E2].
  destruct (step_layers ls cache x') as [x'' cache']. simpl in *.
  list_types. split; lia.
Qed.

(** The [foldl] of [generate_prompt] is [prompt_layers]. *)
Lemma foldl_prompt_layers ls mask x cache0 :
  foldl (fun '(x, cache) l =>
           let '(x, c) := TransformerBlock_call l x (Some mask) None in
           (x, cache ++ [c]))
        (x, cache0) ls
  = ((prompt_layers ls mask x).1, cache0 ++ (prompt_layers ls mask x).2).
Proof.
  revert x cache0. induction ls as [|l ls IH]; intros x cache0;
    cbn [prompt_layers foldl].
  - simpl. by rewrite app_nil_r.
  - destruct (TransformerBlock_call l x (Some mask) None) as [x' c].
    rewrite IH. destruct (prompt_layers ls mask x') as [x'' cache].
    simpl. by rewrite <- app_assoc.
Qed.

(** The indexed loop of [generate_step] is [step_layers]. *)
Lemma foldl_step_layers (self : Llama) ls0 ls cache0 cache x :
  layers self = ls0 ++ ls ->
  length cache0 = length ls0 ->
  length cache = length ls ->
  foldl (fun acc i =>
           '(x, cache) ← acc;
           match layers self !! i, cache !! i with
           | Some l, Some c =>
               let '(x, c) := TransformerBlock_call l x None (Some c) in
               Ok (x, <[i := c]> cache)
           | _, _ => Raise IndexError
           end)
        (Ok (x, cache0 ++ cache)) (seq (length cache0) (length cache))
  = Ok ((step_layers ls cache x).1, cache0 ++ (step_layers ls cache x).2).
Proof.
  set (body := fun (acc : result (matrix * list KVCacheEntry)) (i : nat) => _).
  intros Hl. revert ls0 cache0 cache x Hl.
  induction ls as [|l ls IH]; intros ls0 cache0 [|c cache] x Hl H0 H1;
    cbn [step_layers length seq foldl] in *; try done.
  assert (Hb : body (Ok (x, cache0 ++ c :: cache)) (length cache0) =
               Ok ((TransformerBlock_call l x None (Some c)).1,
                   (cache0 ++ [(TransformerBlock_call l x None (Some c)).2])
                     ++ cache)).
  { unfold body. cbn [mbind result_bind Py.bind]. rewrite Hl.
    rewrite (lookup_app_r cache0) by lia. rewrite Nat.sub_diag.
    rewrite H0, (lookup_app_r ls0), Nat.sub_diag by lia.
    cbn [lookup list_lookup].
    destruct (TransformerBlock_call l x None (Some c)) as [x' c'].
    rewrite <- H0, insert_app_r_alt, Nat.sub_diag by lia.
    simpl. by rewrite <- app_assoc. }
  rewrite Hb.
  destruct (TransformerBlock_call l x None (Some c)) as [x' c'].
  cbn [fst snd].
  specialize (IH (ls0 ++ [l]) (cache0 ++ [c']) cache x').
  rewrite !length_app in IH. cbn [length] in IH.
  replace (S (length cache0)) with (length cache0 + 1)%nat by lia.
  rewrite IH; [|by rewrite Hl, <- app_assoc|lia|lia].
  destruct (step_layers ls cache x') as [x'' cache']. simpl.
  by rewrite <- app_assoc.
Qed.

Lemma generate_prompt_eq (self : Llama) x :
  generate_prompt self x =
  let mask := map (map astype_dtype)
                  (create_additive_causal_mask (length x)) in
  let r := prompt_layers (layers self) mask (map (tok_embeddings self) x) in
  row ← last_row (map (RMSNorm_call (norm self)) r.1);
  Ok (r.2, output self row).
Proof.
  unfold generate_prompt. cbv zeta. rewrite foldl_prompt_layers. done.
Qed.

Lemma generate_step_eq (self : Llama) cache y :
  length cache = length (layers self) ->
  generate_step self cache y =
  let r := step_layers (layers self) cache [tok_embeddings self y] in
  row ← last_row (map (RMSNorm_call (norm self)) r.1);
  Ok (r.2, output self row).
Proof.
  intros Hlen. unfold generate_step. cbv zeta.
  pose proof (foldl_step_layers self [] (layers self) [] cache
                [tok_embeddings self y] eq_refl eq_refl Hlen) as E.
  simpl in E. list_types. rewrite E. done.
Qed.

Lemma last_row_ok (x : matrix) :
  x <> [] -> exists row, last_row x = Ok row /\ last x = Some row.
Proof.
  intros Hx. unfold last_row.
  destruct (last x) as [row|] eqn:E; [by eauto|].
  by apply last_None in E.
Qed.

Lemma generate_prompt_returns (self : Llama) x :
  x <> [] ->
  exists cache logits,
    generate_prompt self x = Ok (cache, logits) /\
    length cache = length (layers self).
Proof.
  intros Hx. rewrite generate_prompt_eq. cbv zeta.
  set (mask := map (map astype_dtype) (create_additive_causal_mask _)).
  destruct (prompt_layers_length (layers self) mask
              (map (tok_embeddings self) x)) as [E1 E2].
  destruct (last_row_ok (map (RMSNorm_call (norm self))
    (prompt_layers (layers self) mask (map (tok_embeddings self) x)).1))
    as (row & -> & _).
  { intros E. apply (f_equal length) in E.
    rewrite length_map, E1, length_map in E. by destruct x. }
  simpl. eauto.
Qed.

Lemma generate_step_returns (self : Llama) cache y :
  length cache = length (layers self) ->
  exists cache' logits,
    generate_step self cache y = Ok (cache', logits) /\
    length cache' = length (layers self).
Proof.
  intros Hlen. rewrite generate_step_eq by done. cbv zeta.
  destruct (step_layers_length (layers self) cache
              [tok_embeddings self y] Hlen) as [E1 E2].
  destruct (last_row_ok (map (RMSNorm_call (norm self))
    (step_layers (layers self) cache [tok_embeddings self y]).1))
    as (row & -> & _).
  { intros E. apply (f_equal length) in E.
    by rewrite length_map, E1 in E. }
  simpl. eauto.
Qed.

(** Resuming a resumable generator yields a token and leaves the
    generator resumable. *)
Lemma generator_next_returns (self : Llama) temp g k :
  resumable self g ->
  exists y cache k',
    generator_next self temp g k = Ok (y, Suspended cache y, k') /\
    resumable self (Suspended cache y).
Proof.
  intros Hg. destruct g as [x|cache y0]; simpl in *.
  - destruct (generate_prompt_returns self x Hg) as (cache & logits & -> & E).
    simpl. destruct (sample temp logits k) as [y k']. eauto.
  - destruct (generate_step_returns self cache y0 Hg)
      as (cache' & logits & -> & E).
    simpl. destruct (sample temp logits k) as [y k']. eauto.
Qed.

End ForwardFacts.
(** ** The generator with temperature 0 *)

Section Greedy.

Context {F : Type} `{Backend F}.
Import Forward Layers.

Local Abbreviation vector := (@vector F).
Local Abbreviation Llama := (@Llama F).
Local Abbreviation generator := (@generator F).

Lemma sample_greedy temp (logits : vector) k :
  Qeq_bool temp 0 = true -> sample temp logits k = (mx_argmax logits, k).
Proof. intros E. unfold sample. by rewrite E. Qed.








End Greedy.

(** ** The driver *)

Section StringFacts.
Import Driver DriverSpec.

Lemma string_app_assoc (a b c : string) :
  (a +:+ (b +:+ c) = (a +:+ b) +:+ c)%string.
Proof.
  induction a as [|x a IH]; [reflexivity|].
  change (String x (a +:+ (b +:+ c)) = String x ((a +:+ b) +:+ c)).
  by f_equal.
Qed.




End StringFacts.

Section DriverFacts.

Context {F : Type} `{Backend F}.
Import Forward Layers Driver DriverSpec.

Local Abbreviation Env := (@Env F).
Local Abbreviation world := (@world F _).
Local Abbreviation loop_state := (@loop_state F _).

Variables (env : Env) (args : Args).

(** The three ways a turn of the loop can end. *)
Lemma loop_body_cases st :
  resumable (model env) (ls_gen st) ->
  let n := Z.of_nat (S (length (ls_tokens st))) in
  (n >= max_tokens args /\
   exists st', loop_body env args st = Ok (Break, st') /\
     turn env args st st' /\
     stdout (ls_world st') = stdout (ls_world st) /\
     ls_skip st' = ls_skip st)
  \/ (n < max_tokens args /\ write_every args = 0 /\
      loop_body env args st = Raise ZeroDivisionError)
  \/ (n < max_tokens args /\ write_every args <> 0 /\
      exists st', loop_body env args st = Ok (Continue, st') /\
        turn env args st st').
Proof.
  intros Hg n. unfold loop_body.
  destruct (generator_next_returns (model env) (temp args) (ls_gen st)
              (random_key (ls_world st)) Hg) as (y & cache & k' & Hn & _).
  rewrite Hn. cbn [mbind result_bind Py.bind].
  rewrite length_app. cbn [length]. rewrite Nat.add_1_r. fold n.
  set (sw := if (S (length (ls_tokens st)) =? 1)%nat then _ else _).
  assert (Hsw : stdout sw.2 = stdout (ls_world st) /\
                random_key sw.2 = k' /\
                num_tokens_prompt sw.1 = num_tokens_prompt (ls_stats st)).
  { subst sw. destruct (S (length (ls_tokens st)) =? 1)%nat; simpl; done. }
  destruct sw as [stats w]. cbn [fst snd] in Hsw.
  destruct Hsw as (Hout & Hkey & Hnum).
  destruct (Z.geb_spec n (max_tokens args)) as [Hge|Hlt].
  - left. split; [lia|]. eexists. split; [reflexivity|].
    split; [|done]. exists y, cache. cbn. rewrite Hkey.
    repeat split; try done. by left.
  - right. destruct (Z.eqb_spec (write_every args) 0) as [Hw|Hw].
    + left. done.
    + right. split; [lia|]. split; [done|].
      destruct (n mod write_every args =? 0).
      * eexists. split; [reflexivity|]. exists y, cache. cbn. rewrite Hkey.
        repeat split; try done. right. cbn. by rewrite Hout.
      * eexists. split; [reflexivity|]. exists y, cache. cbn. rewrite Hkey.
        repeat split; try done. by left.
Qed.

Lemma turn_resumable st st' :
  resumable (model env) (ls_gen st) -> turn env args st st' ->
  resumable (model env) (ls_gen st').
Proof.
  intros Hg (y & cache & Hn & -> & _).
  destruct (generator_next_returns (model env) (temp args) (ls_gen st)
              (random_key (ls_world st)) Hg) as (y' & cache' & k' & Hn' & Hr).
  rewrite Hn in Hn'. injection Hn' as <- <- _. done.
Qed.


End DriverFacts.
Section DriverClaims.

Context {F : Type} `{Backend F}.
Import Forward Layers Driver DriverSpec.

Local Abbreviation Env := (@Env F).
Local Abbreviation world := (@world F _).
Local Abbreviation loop_state := (@loop_state F _).

Variables (env : Env) (args : Args).

(** The input row of the model: the beginning-of-sequence id, then the
    encoded prompt. *)
Let x : list Z :=
  [bos_id (tokenizer env)] ++ encode (tokenizer env) (prompt args).









End DriverClaims.
Section Statistics.

Context {F : Type} `{Backend F}.
Import Forward Layers Driver DriverSpec.

Local Abbreviation Env := (@Env F).
Local Abbreviation world := (@world F _).
Local Abbreviation loop_state := (@loop_state F _).

Variables (env : Env) (args : Args).

Lemma truediv_ok a b : ~ (b == 0)%Q -> truediv a b = Ok (a / b)%Q.
Proof.
  intros Hb. unfold truediv.
  destruct (Qeq_bool b 0) eqn:E; [|done].
  by apply Qeq_bool_eq in E.
Qed.

Lemma truediv_zero a b : (b == 0)%Q -> truediv a b = Raise ZeroDivisionError.
Proof.
  intros Hb. unfold truediv. by rewrite (Qeq_eq_bool _ _ Hb).
Qed.

Lemma inject_Z_zero n : (inject_Z n == 0)%Q <-> n = 0.
Proof. unfold Qeq. simpl. lia. Qed.

(** The statistics block divides by the two token counts and the two
    time differences, in this order, with no test before a division. *)
Lemma print_statistics_raises stats (w : world) :
  let zero_divisor :=
    num_tokens_prompt stats = 0 \/
    (end_prompt stats - start_gen stats == 0)%Q \/
    num_tokens_response stats = 0 \/
    (end_gen stats - end_prompt stats == 0)%Q in
  (zero_divisor /\ print_statistics env stats w = Raise ZeroDivisionError) \/
  (~ zero_divisor /\ exists w', print_statistics env stats w = Ok w').
Proof.
  intros zero_divisor. subst zero_divisor. unfold print_statistics.
  cbv zeta.
  destruct (decide (num_tokens_prompt stats = 0)) as [E1|E1].
  { left. split; [by left|].
    rewrite (truediv_zero _ (inject_Z (num_tokens_prompt stats)))
      by (apply inject_Z_zero; done).
    done. }
  rewrite (truediv_ok _ (inject_Z (num_tokens_prompt stats)))
    by (rewrite inject_Z_zero; done).
  cbn [mbind result_bind Py.bind].
  destruct (Qeq_dec (end_prompt stats - start_gen stats) 0) as [E2|E2].
  { left. split; [by right; left|]. by rewrite (truediv_zero _ _ E2). }
  rewrite (truediv_ok _ _ E2). cbn [mbind result_bind Py.bind].
  destruct (decide (num_tokens_response stats = 0)) as [E3|E3].
  { left. split; [by right; right; left|].
    rewrite (truediv_zero _ (inject_Z (num_tokens_response stats)))
      by (apply inject_Z_zero; done).
    done. }
  rewrite (truediv_ok _ (inject_Z (num_tokens_response stats)))
    by (rewrite inject_Z_zero; done).
  cbn [mbind result_bind Py.bind].
  destruct (Qeq_dec (end_gen stats - end_prompt stats) 0) as [E4|E4].
  { left. split; [by right; right; right|]. by rewrite (truediv_zero _ _ E4). }
  rewrite (truediv_ok _ _ E4). cbn [mbind result_bind Py.bind].
  right. split; [|by eauto]. intros [?|[?|[?|?]]]; done.
Qed.

Lemma generate_loop_counts fuel : forall st st',
  resumable (model env) (ls_gen st) ->
  generate_loop env args fuel st = Some (Ok st') ->
  num_tokens_prompt (ls_stats st') = num_tokens_prompt (ls_stats st) /\
  (1 <= length (ls_tokens st'))%nat.
Proof.
  induction fuel as [|fuel IH]; intros st st' Hg; [done|].
  cbn [generate_loop].
  destruct (loop_body_cases env args st Hg) as
    [(_ & st1 & -> & Ht & _)|[(_ & _ & ->)|(_ & _ & st1 & -> & Ht)]].
  - intros [= <-]. destruct Ht as (y & cache & _ & _ & Htok & Hnum & _).
    rewrite Htok, length_app. simpl. split; [done|lia].
  - done.
  - intros Hloop.
    destruct (IH st1 st' (turn_resumable env args st st1 Hg Ht) Hloop)
      as [Hnum Hlen].
    destruct Ht as (y & cache & _ & _ & _ & Hnum' & _).
    split; [congruence|done].
Qed.

(** The counts recorded by a run of [generate] that returns. *)
Lemma generate_counts fuel stats (w : world) st :
  generate env args fuel stats w = Some (Ok st) ->
  num_tokens_prompt (ls_stats st)
    = Z.of_nat (length (encode (tokenizer env) (prompt args))) /\
  num_tokens_response (ls_stats st) >= 1.
Proof.
  unfold generate. cbv zeta. cbn [time_time].
  set (st0 := {| ls_gen := Created _ |}).
  destruct (generate_loop env args fuel st0) as [[st1|e]|] eqn:Hloop;
    [|done..].
  intros [= <-]. cbn.
  destruct (generate_loop_counts fuel st0 st1) as [Hnum Hlen];
    [done|done|].
  rewrite Hnum. subst st0. cbn. split; lia.
Qed.

(** C5 (amended). The driver has no guard: after a run of [generate] that
    returns, the response count is at least 1, the prompt count is the
    number of tokens of the encoded prompt, and the statistics block ends
    in [ZeroDivisionError] exactly when the prompt encodes to zero tokens
    or one of the two measured times is zero. *)
Theorem main_statistics_division fuel stats (w : world) st :
  generate env args fuel stats w = Some (Ok st) ->
  num_tokens_response (ls_stats st) >= 1 /\
  num_tokens_prompt (ls_stats st)
    = Z.of_nat (length (encode (tokenizer env) (prompt args))) /\
  (main env args fuel stats w = Some (Raise ZeroDivisionError) <->
   encode (tokenizer env) (prompt args) = [] \/
   (end_prompt (ls_stats st) - start_gen (ls_stats st) == 0)%Q \/
   (end_gen (ls_stats st) - end_prompt (ls_stats st) == 0)%Q).
Proof.
  intros Hgen. destruct (generate_counts fuel stats w st Hgen) as [Hp Hr].
  split; [done|]. split; [done|].
  unfold main. rewrite Hgen.
  destruct (print_statistics_raises (ls_stats st) (ls_world st))
    as [[Hz ->]|[Hz [w' ->]]]; cbv zeta in Hz.
  - split; [intros _|done].
    destruct Hz as [Hz|[Hz|[Hz|Hz]]]; [|by right; left|lia|by right; right].
    left. rewrite Hp in Hz.
    destruct (encode (tokenizer env) (prompt args)); [done|simpl in Hz; lia].
  - split; [done|]. intros Hc. destruct Hz.
    destruct Hc as [Hc|[Hc|Hc]]; [|by right; left|by right; right; right].
    left. by rewrite Hp, Hc.
Qed.

End Statistics.
(** ** Runs of the driver around [Toy.llama] *)

Section DriverExamples.
Import Forward Driver DriverSpec ToyDriver.

Lemma decode_letters_app ts ts' :
  decode_letters (ts ++ ts')
  = (decode_letters ts +:+ decode_letters ts')%string.
Proof.
  induction ts as [|t ts IH]; [reflexivity|].
  change (letter t +:+ decode_letters (ts ++ ts')
          = (letter t +:+ decode_letters ts) +:+ decode_letters ts')%string.
  rewrite IH. apply string_app_assoc.
Qed.

Lemma letters_decode_extends_on ts : decode_extends_on letters ts.
Proof.
  intros i j Hi Hj. exists (decode_letters (drop i (take j ts))).
  cbn [decode letters]. rewrite <- decode_letters_app. f_equal.
  rewrite <- (take_drop i (take j ts)) at 1. f_equal.
  rewrite take_take. f_equal. lia.
Qed.

End DriverExamples.





Lemma main_statistics_division_witness :
  exists st,
    Driver.generate (H := Toy.backend) (ToyDriver.env ToyDriver.letters)
      (ToyDriver.args "eib" 4 1) 4 Driver.ModelStats_init ToyDriver.world0
      = Some (Ok st) /\
    Driver.num_tokens_response (Driver.ls_stats st) >= 1 /\
    Driver.num_tokens_prompt (Driver.ls_stats st) = 3.
Proof.
  assert (Hrun : exists st,
    Driver.generate (H := Toy.backend) (ToyDriver.env ToyDriver.letters)
      (ToyDriver.args "eib" 4 1) 4 Driver.ModelStats_init ToyDriver.world0
      = Some (Ok st)) by (vm_compute; eexists; reflexivity).
  destruct Hrun as [st Hst].
  destruct (main_statistics_division (ToyDriver.env ToyDriver.letters)
              (ToyDriver.args "eib" 4 1) 4 Driver.ModelStats_init
              ToyDriver.world0 st Hst) as (Hr & Hp & _).
  exists st. split; [exact Hst|]. split; [exact Hr|exact Hp].
Defined.

(** C5, as stated, fails on the empty prompt: the run ends in
    [ZeroDivisionError], raised by the ms/token computation. *)
Lemma statistics_counterexample :
  ~ DriverSpec.statistics_guarded (H := Toy.backend)
      (ToyDriver.env ToyDriver.letters) (ToyDriver.args "" 4 1) 4
      Driver.ModelStats_init ToyDriver.world0.
Proof.
  intros Hc. apply Hc.
  - reflexivity.
  - vm_compute. reflexivity.
Qed.
(** ** The driver: the clock, the prints, the limit *)

Section DriverRuns.

Context {F : Type} `{Backend F}.
Import Forward Layers Driver DriverSpec.

Local Abbreviation Env := (@Env F).
Local Abbreviation world := (@world F _).
Local Abbreviation loop_state := (@loop_state F _).

Variables (env : Env) (args : Args).




Let x : list Z :=
  [bos_id (tokenizer env)] ++ encode (tokenizer env) (prompt args).








End DriverRuns.





(** ** The driver with temperature 0 does not read the random state *)

Section DriverGreedy.

Context {F : Type} `{Backend F}.
Import Forward Layers Driver DriverSpec.

Local Abbreviation Env := (@Env F).
Local Abbreviation world := (@world F _).
Local Abbreviation loop_state := (@loop_state F _).
Local Abbreviation Llama := (@Llama F).
Local Abbreviation generator := (@generator F).

Variables (env : Env) (args : Args).

Lemma generator_next_greedy_eq (self : Llama) temp (g : generator) k :
  Qeq_bool temp 0 = true ->
  generator_next self temp g k =
  '(cache, logits) ←
    match g with
    | Created x => generate_prompt self x
    | Suspended c y => generate_step self c y
    end;
  Ok (mx_argmax logits, Suspended cache (mx_argmax logits), k).
Proof.
  intros E. destruct g as [x|c y]; cbn [generator_next].
  - destruct (generate_prompt self x) as [[cache logits]|e]; [|done].
    cbn [mbind result_bind Py.bind]. by rewrite sample_greedy.
  - destruct (generate_step self c y) as [[cache logits]|e]; [|done].
    cbn [mbind result_bind Py.bind]. by rewrite sample_greedy.
Qed.

(** Two states of the loop that differ at most in the random state. *)
Let agree (st1 st2 : loop_state) : Prop :=
  ls_gen st1 = ls_gen st2 /\ ls_tokens st1 = ls_tokens st2 /\
  ls_skip st1 = ls_skip st2 /\ ls_stats st1 = ls_stats st2 /\
  stdout (ls_world st1) = stdout (ls_world st2) /\
  clock (ls_world st1) = clock (ls_world st2).

Lemma loop_body_agree st1 st2 :
  Qeq_bool (temp args) 0 = true ->
  agree st1 st2 ->
  match loop_body env args st1, loop_body env args st2 with
  | Ok (c1, s1), Ok (c2, s2) => c1 = c2 /\ agree s1 s2
  | Raise e1, Raise e2 => e1 = e2
  | _, _ => False
  end.
Proof.
  intros E. destruct st1 as [g1 t1 sk1 stats1 [o1 c1 k1]].
  destruct st2 as [g2 t2 sk2 stats2 [o2 c2 k2]].
  unfold agree. cbn. intros (-> & -> & -> & -> & -> & ->).
  unfold loop_body. cbn [ls_gen ls_world ls_tokens ls_skip ls_stats random_key].
  rewrite !generator_next_greedy_eq by done.
  destruct g2 as [x|c y];
    [destruct (generate_prompt (model env) x) as [[cache logits]|e]
    |destruct (generate_step (model env) c y) as [[cache logits]|e]];
    cbn [mbind result_bind Py.bind]; try done;
    (destruct (length (t2 ++ [mx_argmax logits]) =? 1)%nat);
    cbn [time_time set_random_key stdout clock random_key];
    (destruct (Z.of_nat (length (t2 ++ [mx_argmax logits]))
               >=? max_tokens args); [by repeat split|]);
    (destruct (write_every args =? 0); [done|]);
    destruct (Z.of_nat (length (t2 ++ [mx_argmax logits]))
                mod write_every args =? 0); by repeat split.
Qed.

Lemma generate_loop_agree fuel : forall st1 st2,
  Qeq_bool (temp args) 0 = true ->
  agree st1 st2 ->
  match generate_loop env args fuel st1, generate_loop env args fuel st2 with
  | Some (Ok s1), Some (Ok s2) => agree s1 s2
  | Some (Raise e1), Some (Raise e2) => e1 = e2
  | None, None => True
  | _, _ => False
  end.
Proof.
  induction fuel as [|fuel IH]; intros st1 st2 E Ha; [done|].
  cbn [generate_loop].
  pose proof (loop_body_agree st1 st2 E Ha) as Hb.
  destruct (loop_body env args st1) as [[c1 s1]|e1],
           (loop_body env args st2) as [[c2 s2]|e2]; try done.
  destruct Hb as [<- Hs]. destruct c1; [done|]. by apply IH.
Qed.

(** X15. With temperature 0 the seed changes nothing: two runs of the driver
    from worlds that differ at most in the state of [mx.random] end the
    same way, and when they return they have drawn the same tokens,
    recorded the same statistics and printed the same text. *)
Theorem generate_seed_irrelevant fuel stats (w1 w2 : world) :
  Qeq_bool (temp args) 0 = true ->
  stdout w1 = stdout w2 ->
  clock w1 = clock w2 ->
  match generate env args fuel stats w1, generate env args fuel stats w2 with
  | Some (Ok st1), Some (Ok st2) =>
      ls_tokens st1 = ls_tokens st2 /\ ls_stats st1 = ls_stats st2 /\
      stdout (ls_world st1) = stdout (ls_world st2)
  | Some (Raise e1), Some (Raise e2) => e1 = e2
  | None, None => True
  | _, _ => False
  end.
Proof.
  intros E Hout Hclk. unfold generate. cbv zeta.
  cbn [time_time print stdout clock random_key].
  rewrite Hout, Hclk.
  set (x := [bos_id (tokenizer env)] ++ encode (tokenizer env) (prompt args)).
  set (st1 := {| ls_gen := Created x;
                 ls_world := {| random_key := random_key w1 |} |}).
  set (st2 := {| ls_gen := Created x;
                 ls_world := {| random_key := random_key w2 |} |}).
  pose proof (generate_loop_agree fuel st1 st2 E) as Hl.
  destruct (generate_loop env args fuel st1) as [[s1|e1]|],
           (generate_loop env args fuel st2) as [[s2|e2]|];
    try (by apply Hl); try (exfalso; by apply Hl).
  destruct Hl as (Hg & Ht & Hs & Hst & Ho & Hc); [done|].
  cbn. by rewrite Ht, Hs, Hst, Ho, Hc.
Qed.

End DriverGreedy.

Lemma generate_seed_irrelevant_witness :
  match
    Driver.generate (H := Toy.backend) (ToyDriver.env ToyDriver.letters)
      (ToyDriver.args "eib" 3 1) 3 Driver.ModelStats_init ToyDriver.world0,
    Driver.generate (H := Toy.backend) (ToyDriver.env ToyDriver.letters)
      (ToyDriver.args "eib" 3 1) 3 Driver.ModelStats_init
      (Driver.set_random_key (7%nat : @key _ Toy.backend)
         ToyDriver.world0)
  with
  | Some (Ok st1), Some (Ok st2) =>
      Driver.ls_tokens st1 = Driver.ls_tokens st2 /\
      Driver.ls_stats st1 = Driver.ls_stats st2 /\
      Driver.stdout (Driver.ls_world st1) = Driver.stdout (Driver.ls_world st2)
  | Some (Raise e1), Some (Raise e2) => e1 = e2
  | None, None => True
  | _, _ => False
  end.
Proof.
  apply (generate_seed_irrelevant (H := Toy.backend)
           (ToyDriver.env ToyDriver.letters) (ToyDriver.args "eib" 3 1) 3
           Driver.ModelStats_init ToyDriver.world0
           (Driver.set_random_key (7%nat : @key _ Toy.backend)
         ToyDriver.world0)).
  - reflexivity.
  - reflexivity.
  - reflexivity.
Defined.
(** ** Shapes: the rules on the shapes the script meets *)

(** Unfolds [reshape] on a target whose entries are known not to be
    negative, apart from a literal [-1]. *)
Ltac reshape_target :=
  unfold Shapes.reshape; cbn [existsb List.filter map];
  change (-1 =? -1) with true; change (-1 <? -1) with false;
  repeat match goal with
         | |- context [?t <? -1] => destruct (Z.ltb_spec t (-1)); [lia|]
         | |- context [?t =? -1] => destruct (Z.eqb_spec t (-1)); [lia|]
         end;
  cbn [orb negb Shapes.numel foldr].

Section ShapeRules.
Import Shapes.

Lemma reshape_infer_last4 (a : shape) t0 t1 t2 q :
  0 < t0 -> 0 < t1 -> 0 < t2 -> numel a = t0 * t1 * t2 * q ->
  reshape a [t0; t1; t2; -1] = Ok [t0; t1; t2; q].
Proof.
  intros H0 H1 H2 Ha. reshape_target. rewrite Ha.
  replace (t0 * (t1 * (t2 * 1))) with (t0 * t1 * t2) by ring.
  destruct (Z.eqb_spec (t0 * t1 * t2) 0) as [E|E]; [nia|].
  replace (t0 * t1 * t2 * q) with (q * (t0 * t1 * t2)) by ring.
  rewrite Z.mod_mul, Z.div_mul by done. done.
Qed.

Lemma reshape_infer_last3 (a : shape) t0 t1 q :
  0 < t0 -> 0 < t1 -> numel a = t0 * t1 * q ->
  reshape a [t0; t1; -1] = Ok [t0; t1; q].
Proof.
  intros H0 H1 Ha. reshape_target. rewrite Ha.
  replace (t0 * (t1 * 1)) with (t0 * t1) by ring.
  destruct (Z.eqb_spec (t0 * t1) 0) as [E|E]; [nia|].
  replace (t0 * t1 * q) with (q * (t0 * t1)) by ring.
  rewrite Z.mod_mul, Z.div_mul by done. done.
Qed.

Lemma reshape_infer_first3 (a : shape) t1 t2 q :
  0 < t1 -> 0 < t2 -> numel a = q * t1 * t2 ->
  reshape a [-1; t1; t2] = Ok [q; t1; t2].
Proof.
  intros H1 H2 Ha. reshape_target. rewrite Ha.
  replace (t1 * (t2 * 1)) with (t1 * t2) by ring.
  destruct (Z.eqb_spec (t1 * t2) 0) as [E|E]; [nia|].
  replace (q * t1 * t2) with (q * (t1 * t2)) by ring.
  rewrite Z.mod_mul, Z.div_mul by done. done.
Qed.

Lemma reshape_known4 (a : shape) t0 t1 t2 t3 :
  0 <= t0 -> 0 <= t1 -> 0 <= t2 -> 0 <= t3 ->
  numel a = t0 * t1 * t2 * t3 ->
  reshape a [t0; t1; t2; t3] = Ok [t0; t1; t2; t3].
Proof.
  intros H0 H1 H2 H3 Ha. reshape_target. rewrite Ha.
  replace (t0 * (t1 * (t2 * (t3 * 1)))) with (t0 * t1 * t2 * t3) by ring.
  by rewrite Z.eqb_refl.
Qed.

Lemma concatenate_onto_replicate5 n a0 a1 c a2 a3 a4 :
  concatenate_onto [a0; a1; c; a3; a4] (replicate n [a0; a1; a2; a3; a4]) 2
  = Ok [a0; a1; c + Z.of_nat n * a2; a3; a4].
Proof.
  revert c. induction n as [|n IH]; intros c.
  - cbn [replicate concatenate_onto]. do 4 f_equal. lia.
  - cbn [replicate concatenate_onto].
    assert (same_but 2 [a0; a1; c; a3; a4] [a0; a1; a2; a3; a4] = true) as ->.
    { cbn. by rewrite !Z.eqb_refl. }
    cbn [nth list_insert insert]. rewrite IH. do 4 f_equal. lia.
Qed.

Lemma concatenate_replicate5 n a0 a1 a2 a3 a4 :
  (1 <= n)%nat ->
  concatenate (replicate n [a0; a1; a2; a3; a4]) 2
  = Ok [a0; a1; Z.of_nat n * a2; a3; a4].
Proof.
  destruct n as [|n]; [lia|]. intros _. cbn [replicate concatenate].
  change (2 <? length [a0; a1; a2; a3; a4])%nat with true.
  rewrite concatenate_onto_replicate5. do 4 f_equal. lia.
Qed.

Lemma concatenate_pair4 a0 a1 c a2 a3 :
  concatenate [[a0; a1; c; a3]; [a0; a1; a2; a3]] 2
  = Ok [a0; a1; c + a2; a3].
Proof.
  cbn [concatenate concatenate_onto].
  change (2 <? length [a0; a1; c; a3])%nat with true.
  assert (same_but 2 [a0; a1; c; a3] [a0; a1; a2; a3] = true) as ->.
  { cbn. by rewrite !Z.eqb_refl. }
  done.
Qed.

Lemma matmul4 b h m k n :
  matmul [b; h; m; k] [b; h; k; n] = Ok [b; h; m; n].
Proof. unfold matmul. cbn. by rewrite !Z.eqb_refl. Qed.

Lemma broadcast_mask b h l lk :
  broadcast [b; h; l; lk] [l; lk] = Ok [b; h; l; lk].
Proof. unfold broadcast. cbn. by rewrite !Z.eqb_refl. Qed.

Lemma broadcast_same3 b l d : broadcast [b; l; d] [b; l; d] = Ok [b; l; d].
Proof. unfold broadcast. cbn. by rewrite !Z.eqb_refl. Qed.

Lemma Linear3 i o b l : Linear i o [b; l; i] = Ok [b; l; o].
Proof. unfold Linear. cbn. by rewrite Z.eqb_refl. Qed.

Lemma Linear2 i o b : Linear i o [b; i] = Ok [b; o].
Proof. unfold Linear. cbn. by rewrite Z.eqb_refl. Qed.

Lemma RMSNorm_call3 d b l : RMSNorm_call d [b; l; d] = Ok [b; l; d].
Proof.
  unfold RMSNorm_call, broadcast. cbn. rewrite !Z.eqb_refl.
  destruct (d =? 1) eqn:E; cbn; rewrite !Z.eqb_refl; done.
Qed.

Lemma FeedForward_call3 args b l :
  FeedForward_call args [b; l; dim args] = Ok [b; l; dim args].
Proof.
  unfold FeedForward_call. rewrite Linear3. cbn [mbind result_bind Py.bind].
  rewrite broadcast_same3. cbn [mbind result_bind Py.bind]. apply Linear3.
Qed.

End ShapeRules.

Section ShapeForward.
Import Shapes ShapesSpec.

Lemma transpose4_0213 a b c d :
  transpose [a; b; c; d] [0; 2; 1; 3]%nat = Ok [a; c; b; d].
Proof. reflexivity. Qed.

Lemma transpose4_0132 a b c d :
  transpose [a; b; c; d] [0; 1; 3; 2]%nat = Ok [a; b; d; c].
Proof. reflexivity. Qed.

End ShapeForward.
(** ** Shapes: what a successful [Attention] call returns *)

Section ShapeInversion.
Import Shapes ShapesSpec.


Lemma Linear3_inv i o b l d s :
  Linear i o [b; l; d] = Ok s -> d = i /\ s = [b; l; o].
Proof.
  unfold Linear. cbn [rev app].
  destruct (Z.eqb_spec d i); [|done]. by intros [= <-].
Qed.

Lemma reshape_infer_last4_inv (a : shape) t0 t1 t2 s :
  reshape a [t0; t1; t2; -1] = Ok s ->
  0 < t0 /\ 0 < t1 /\ 0 < t2 /\ s = [t0; t1; t2; numel a / (t0 * t1 * t2)].
Proof.
  unfold reshape. cbn [existsb List.filter map].
  change (-1 =? -1) with true. change (-1 <? -1) with false.
  destruct (Z.ltb_spec t0 (-1)); [done|].
  destruct (Z.ltb_spec t1 (-1)); [done|].
  destruct (Z.ltb_spec t2 (-1)); [done|].
  destruct (Z.eqb_spec t0 (-1)); [by destruct (t1 =? -1), (t2 =? -1)|].
  destruct (Z.eqb_spec t1 (-1)); [by destruct (t2 =? -1)|].
  destruct (Z.eqb_spec t2 (-1)); [done|].
  cbn [orb negb numel foldr].
  replace (t0 * (t1 * (t2 * 1))) with (t0 * t1 * t2) by ring.
  destruct (Z.eqb_spec (t0 * t1 * t2) 0) as [E|E]; [done|].
  destruct (numel a mod (t0 * t1 * t2) =? 0); [|done].
  intros [= <-]. repeat split; nia.
Qed.

Lemma reshape_infer_last3_inv (a : shape) t0 t1 s :
  reshape a [t0; t1; -1] = Ok s ->
  0 < t0 /\ 0 < t1 /\ s = [t0; t1; numel a / (t0 * t1)].
Proof.
  unfold reshape. cbn [existsb List.filter map].
  change (-1 =? -1) with true. change (-1 <? -1) with false.
  destruct (Z.ltb_spec t0 (-1)); [done|].
  destruct (Z.ltb_spec t1 (-1)); [done|].
  destruct (Z.eqb_spec t0 (-1)); [by destruct (t1 =? -1)|].
  destruct (Z.eqb_spec t1 (-1)); [done|].
  cbn [orb negb numel foldr].
  replace (t0 * (t1 * 1)) with (t0 * t1) by ring.
  destruct (Z.eqb_spec (t0 * t1) 0) as [E|E]; [done|].
  destruct (numel a mod (t0 * t1) =? 0); [|done].
  intros [= <-]. repeat split; nia.
Qed.

Lemma reshape_infer_first3_inv (a : shape) t1 t2 s :
  reshape a [-1; t1; t2] = Ok s -> 0 < t1 /\ 0 < t2.
Proof.
  unfold reshape. cbn [existsb List.filter map].
  change (-1 =? -1) with true. change (-1 <? -1) with false.
  destruct (Z.ltb_spec t1 (-1)); [done|].
  destruct (Z.ltb_spec t2 (-1)); [done|].
  destruct (Z.eqb_spec t1 (-1)); [by destruct (t2 =? -1)|].
  destruct (Z.eqb_spec t2 (-1)); [done|].
  cbn [orb negb numel foldr].
  replace (t1 * (t2 * 1)) with (t1 * t2) by ring.
  destruct (Z.eqb_spec (t1 * t2) 0) as [E|E]; [done|].
  intros _. nia.
Qed.

Lemma reshape_known4_inv (a : shape) t0 t1 t2 t3 s :
  0 <= t0 -> 0 <= t1 -> 0 <= t2 -> 0 <= t3 ->
  reshape a [t0; t1; t2; t3] = Ok s -> s = [t0; t1; t2; t3].
Proof.
  intros H0 H1 H2 H3. reshape_target.
  destruct (numel a =? _); [|done]. by intros [= <-].
Qed.

Lemma RoPE_call4_inv dims tr base off b h l d s :
  0 <= b -> 0 <= h ->
  RoPE_call dims tr base [b; h; l; d] off = Ok s ->
  s = [b; h; l; d] /\ 0 < l /\ 0 < d.
Proof.
  intros Hb Hh. unfold RoPE_call. cbn [rev app]. intros Hs.
  apply bind_ok_inv in Hs as (x3 & H3 & Hs).
  apply reshape_infer_first3_inv in H3 as [Hl Hd].
  apply bind_ok_inv in Hs as (n & _ & Hs).
  apply bind_ok_inv in Hs as (theta & _ & Hs).
  apply bind_ok_inv in Hs as (rx & _ & Hs).
  apply reshape_known4_inv in Hs; [done|lia..].
Qed.

Lemma concatenate_replicate5_inv n a0 a1 a2 a3 a4 s :
  concatenate (replicate n [a0; a1; a2; a3; a4]) 2 = Ok s ->
  s = [a0; a1; Z.of_nat n * a2; a3; a4].
Proof.
  destruct n as [|n]; [done|].
  rewrite concatenate_replicate5 by lia. by intros [= <-].
Qed.

Lemma concatenate_onto4_inv (c : shape) a0 a1 a2 a3 s :
  concatenate [c; [a0; a1; a2; a3]] 2 = Ok s ->
  c = [a0; a1; nth 2 c 0; a3] /\ s = [a0; a1; nth 2 c 0 + a2; a3].
Proof.
  cbn [concatenate concatenate_onto].
  destruct (2 <? length c)%nat; [|done].
  destruct (same_but 2 c [a0; a1; a2; a3]) eqn:E; [|done].
  unfold same_but in E.
  apply andb_true_iff in E as [E Hall].
  apply andb_true_iff in E as [Hlen _].
  apply Nat.eqb_eq in Hlen.
  destruct c as [|c0 [|c1 [|c2 [|c3 [|c4 c]]]]]; try done.
  cbn in Hall. rewrite !andb_true_iff in Hall.
  destruct Hall as (H0 & H1 & H3 & _).
  apply Z.eqb_eq in H0, H1, H3. subst. cbn. by intros [= <-].
Qed.

Lemma matmul4_inv b h m k b' h' k' n s :
  matmul [b; h; m; k] [b'; h'; k'; n] = Ok s -> k = k'.
Proof.
  unfold matmul. cbn [rev app]. by destruct (Z.eqb_spec k k').
Qed.

End ShapeInversion.

Section AttentionCacheEntry.
Import Shapes ShapesSpec.

(** The inner [repeat], read backwards. *)
Lemma repeat_shape_inv args r B L a0 a1 a2 a3 s :
  (a ← expand_dims [a0; a1; a2; a3] 2;
   a ← concatenate (replicate r a) 2;
   reshape a [B; n_heads args; L; -1]) = Ok s ->
  0 < B /\ 0 < n_heads args /\ 0 < L /\
  s = [B; n_heads args; L;
       numel [a0; a1; Z.of_nat r * 1; a2; a3] / (B * n_heads args * L)].
Proof.
  cbn [expand_dims length Nat.leb take drop app mbind result_bind Py.bind].
  intros H. apply bind_ok_inv in H as (a & Ha & H).
  apply concatenate_replicate5_inv in Ha as ->.
  by apply reshape_infer_last4_inv in H.
Qed.

(** C2 (amended). The cache entry returned by a successful [Attention]
    call has, for the keys and for the values, the shape
    [[batch, n_heads, cached length + L, head_dim]]: its second axis is the
    number of query heads, the keys and values being stored after the
    grouped-query repetition. *)
Theorem Attention_cache_entry_shape args x mask cache out keys values :
  Attention_call args x mask cache = Ok (out, (keys, values)) ->
  exists B L D,
    x = [B; L; D] /\
    keys = [B; n_heads args;
            match cache with Some (key_cache, _) => nth 2 key_cache 0
                        | None => 0 end + L;
            head_dim args] /\
    values = [B; n_heads args;
              match cache with Some (_, value_cache) => nth 2 value_cache 0
                          | None => 0 end + L;
              head_dim args].
Proof.
  unfold Attention_call. intros H.
  apply bind_ok_inv in H as (r & Hr & H).
  destruct x as [|B [|L [|D [|? ?]]]]; try discriminate H.
  exists B, L, D. split; [done|].
  apply bind_ok_inv in H as (q0 & Hq0 & H).
  apply Linear3_inv in Hq0 as [-> ->].
  apply bind_ok_inv in H as (k0 & Hk0 & H). apply Linear3_inv in Hk0 as [_ ->].
  apply bind_ok_inv in H as (v0 & Hv0 & H). apply Linear3_inv in Hv0 as [_ ->].
  apply bind_ok_inv in H as (q1 & Hq1 & H).
  apply reshape_infer_last4_inv in Hq1 as (HB & HL & HH & ->).
  apply bind_ok_inv in H as (q2 & [= <-] & H).
  apply bind_ok_inv in H as (k1 & Hk1 & H).
  apply reshape_infer_last4_inv in Hk1 as (_ & _ & HKV & ->).
  apply bind_ok_inv in H as (k2 & [= <-] & H).
  apply bind_ok_inv in H as (v1 & Hv1 & H).
  apply reshape_infer_last4_inv in Hv1 as (_ & _ & _ & ->).
  apply bind_ok_inv in H as (v2 & [= <-] & H).
  cbn [nth] in H.
  apply bind_ok_inv in H as (k3 & Hk3 & H).
  apply repeat_shape_inv in Hk3 as (_ & _ & _ & ->).
  apply bind_ok_inv in H as (v3 & Hv3 & H).
  apply repeat_shape_inv in Hv3 as (_ & _ & _ & ->).
  set (d3 := numel _ / (B * n_heads args * L)) in H.
  apply bind_ok_inv in H as ([[q k] v] & Hqkv & H).
  assert (Hqkv' :
    q = [B; n_heads args; L;
         numel [B; L; n_heads args * head_dim args]
         / (B * L * n_heads args)] /\
    k = [B; n_heads args;
         match cache with Some (key_cache, _) => nth 2 key_cache 0
                     | None => 0 end + L; d3] /\
    v = [B; n_heads args;
         match cache with Some (_, value_cache) => nth 2 value_cache 0
                     | None => 0 end + L; d3]).
  { destruct cache as [[key_cache value_cache]|].
    - apply bind_ok_inv in Hqkv as (off & _ & Hqkv).
      apply bind_ok_inv in Hqkv as (q' & Hq' & Hqkv).
      apply RoPE_call4_inv in Hq' as [-> _]; [|lia..].
      apply bind_ok_inv in Hqkv as (off' & _ & Hqkv).
      apply bind_ok_inv in Hqkv as (k' & Hk' & Hqkv).
      apply RoPE_call4_inv in Hk' as [-> _]; [|lia..].
      apply bind_ok_inv in Hqkv as (k'' & Hk'' & Hqkv).
      apply concatenate_onto4_inv in Hk'' as [_ ->].
      apply bind_ok_inv in Hqkv as (v'' & Hv'' & Hqkv).
      apply concatenate_onto4_inv in Hv'' as [_ ->].
      by injection Hqkv as <- <- <-.
    - apply bind_ok_inv in Hqkv as (q' & Hq' & Hqkv).
      apply RoPE_call4_inv in Hq' as [-> _]; [|lia..].
      apply bind_ok_inv in Hqkv as (k' & Hk' & Hqkv).
      apply RoPE_call4_inv in Hk' as [-> _]; [|lia..].
      by injection Hqkv as <- <- <-. }
  destruct Hqkv' as (-> & -> & ->).
  apply bind_ok_inv in H as (kt & [= <-] & H).
  apply bind_ok_inv in H as (scores & Hs & H).
  cbn [nth] in Hs. apply matmul4_inv in Hs.
  assert (Hd : d3 = head_dim args).
  { rewrite <- Hs. cbn [numel foldr].
    replace (B * (L * (n_heads args * head_dim args * 1)))
      with (head_dim args * (B * L * n_heads args)) by ring.
    rewrite Z.div_mul by nia. done. }
  rewrite Hd in H.
  apply bind_ok_inv in H as (scores' & _ & H).
  apply bind_ok_inv in H as (o1 & _ & H).
  apply bind_ok_inv in H as (o2 & _ & H).
  apply bind_ok_inv in H as (o3 & _ & H).
  apply bind_ok_inv in H as (o4 & _ & H).
  by injection H as <- <- <-.
Qed.

End AttentionCacheEntry.

Lemma Attention_cache_entry_shape_witness :
  Shapes.Attention_call ShapesExample.args [1; 1; 8] None
    (Some ([1; 4; 3; 2], [1; 4; 3; 2]))
  = Ok ([1; 1; 8], ([1; 4; 4; 2], [1; 4; 4; 2])) /\
  exists B L D,
    [1; 1; 8] = [B; L; D] /\
    [1; 4; 4; 2] = [B; 4; 3 + L; 2] /\
    [1; 4; 4; 2] = [B; 4; 3 + L; 2].
Proof.
  split; [vm_compute; reflexivity|].
  apply (Attention_cache_entry_shape ShapesExample.args [1; 1; 8] None
           (Some ([1; 4; 3; 2], [1; 4; 3; 2])) [1; 1; 8]
           [1; 4; 4; 2] [1; 4; 4; 2]).
  vm_compute. reflexivity.
Defined.

(** C2, as stated, fails with four query heads on two key/value heads: the
    keys come back with shape [[1, 4, 3, 2]]. *)
Lemma kv_heads_axis_counterexample :
  ~ ShapesSpec.kv_heads_axis ShapesExample.args [1; 3; 8] (Some [3; 3]) None.
Proof.
  intros Hc.
  destruct (Hc [1; 3; 8] [1; 4; 3; 2] [1; 4; 3; 2]) as [Hk _].
  - vm_compute. reflexivity.
  - discriminate Hk.
Qed.
(** ** Shapes: what [Attention] needs to return *)

Section AttentionRequires.
Import Shapes ShapesSpec.




End AttentionRequires.

(** ** Shapes: the caches of [Llama.generate] *)

Section AttentionInversion.
Import Shapes ShapesSpec.

(** What a successful [Attention] call returns, output and cache entry. *)
Lemma Attention_call_inv args x mask cache out keys values :
  Attention_call args x mask cache = Ok (out, (keys, values)) ->
  exists B L,
    x = [B; L; dim args] /\ out = x /\
    keys = [B; n_heads args;
            match cache with Some (key_cache, _) => nth 2 key_cache 0
                        | None => 0 end + L;
            head_dim args] /\
    values = [B; n_heads args;
              match cache with Some (_, value_cache) => nth 2 value_cache 0
                          | None => 0 end + L;
              head_dim args].
Proof.
  unfold Attention_call. intros H.
  apply bind_ok_inv in H as (r & Hr & H).
  destruct x as [|B [|L [|D [|? ?]]]]; try discriminate H.
  apply bind_ok_inv in H as (q0 & Hq0 & H).
  apply Linear3_inv in Hq0 as [-> ->].
  apply bind_ok_inv in H as (k0 & Hk0 & H). apply Linear3_inv in Hk0 as [_ ->].
  apply bind_ok_inv in H as (v0 & Hv0 & H). apply Linear3_inv in Hv0 as [_ ->].
  apply bind_ok_inv in H as (q1 & Hq1 & H).
  apply reshape_infer_last4_inv in Hq1 as (HB & HL & HH & ->).
  apply bind_ok_inv in H as (q2 & [= <-] & H).
  apply bind_ok_inv in H as (k1 & Hk1 & H).
  apply reshape_infer_last4_inv in Hk1 as (_ & _ & HKV & ->).
  apply bind_ok_inv in H as (k2 & [= <-] & H).
  apply bind_ok_inv in H as (v1 & Hv1 & H).
  apply reshape_infer_last4_inv in Hv1 as (_ & _ & _ & ->).
  apply bind_ok_inv in H as (v2 & [= <-] & H).
  cbn [nth] in H.
  apply bind_ok_inv in H as (k3 & Hk3 & H).
  apply repeat_shape_inv in Hk3 as (_ & _ & _ & ->).
  apply bind_ok_inv in H as (v3 & Hv3 & H).
  apply repeat_shape_inv in Hv3 as (_ & _ & _ & ->).
  set (d3 := numel _ / (B * n_heads args * L)) in H.
  apply bind_ok_inv in H as ([[q k] v] & Hqkv & H).
  assert (Hqkv' :
    q = [B; n_heads args; L;
         numel [B; L; n_heads args * head_dim args]
         / (B * L * n_heads args)] /\
    k = [B; n_heads args;
         match cache with Some (key_cache, _) => nth 2 key_cache 0
                     | None => 0 end + L; d3] /\
    v = [B; n_heads args;
         match cache with Some (_, value_cache) => nth 2 value_cache 0
                     | None => 0 end + L; d3]).
  { destruct cache as [[key_cache value_cache]|].
    - apply bind_ok_inv in Hqkv as (off & _ & Hqkv).
      apply bind_ok_inv in Hqkv as (q' & Hq' & Hqkv).
      apply RoPE_call4_inv in Hq' as [-> _]; [|lia..].
      apply bind_ok_inv in Hqkv as (off' & _ & Hqkv).
      apply bind_ok_inv in Hqkv as (k' & Hk' & Hqkv).
      apply RoPE_call4_inv in Hk' as [-> _]; [|lia..].
      apply bind_ok_inv in Hqkv as (k'' & Hk'' & Hqkv).
      apply concatenate_onto4_inv in Hk'' as [_ ->].
      apply bind_ok_inv in Hqkv as (v'' & Hv'' & Hqkv).
      apply concatenate_onto4_inv in Hv'' as [_ ->].
      by injection Hqkv as <- <- <-.
    - apply bind_ok_inv in Hqkv as (q' & Hq' & Hqkv).
      apply RoPE_call4_inv in Hq' as [-> _]; [|lia..].
      apply bind_ok_inv in Hqkv as (k' & Hk' & Hqkv).
      apply RoPE_call4_inv in Hk' as [-> _]; [|lia..].
      by injection Hqkv as <- <- <-. }
  destruct Hqkv' as (-> & -> & ->).
  apply bind_ok_inv in H as (kt & [= <-] & H).
  apply bind_ok_inv in H as (scores & Hs & H).
  cbn [nth] in Hs. apply matmul4_inv in Hs.
  assert (Hd : d3 = head_dim args).
  { rewrite <- Hs. cbn [numel foldr].
    replace (B * (L * (n_heads args * head_dim args * 1)))
      with (head_dim args * (B * L * n_heads args)) by ring.
    rewrite Z.div_mul by nia. done. }
  rewrite Hd in H.
  apply bind_ok_inv in H as (scores' & _ & H).
  apply bind_ok_inv in H as (o1 & _ & H).
  apply bind_ok_inv in H as (o2 & _ & H).
  apply bind_ok_inv in H as (o3 & Ho3 & H).
  apply reshape_infer_last3_inv in Ho3 as (_ & _ & ->).
  apply bind_ok_inv in H as (o4 & Ho4 & H).
  apply Linear3_inv in Ho4 as [_ ->].
  injection H as <- <- <-. by exists B, L.
Qed.

End AttentionInversion.

Section CacheGrowth.
Import Shapes ShapesSpec.

Variable args : ModelArgs.
Variable B : Z.

(** A block that returns, on an input [[B, L, dim]] and a cache entry of
    [Lc] positions, returns an output of the same shape and an entry of
    [Lc + L] positions. *)
Lemma TransformerBlock_call_inv L Lc mask cache out c :
  (cache = None /\ Lc = 0 \/ cache = Some (cache_shape args B Lc)) ->
  TransformerBlock_call args [B; L; dim args] mask cache = Ok (out, c) ->
  out = [B; L; dim args] /\ c = cache_shape args B (Lc + L).
Proof.
  intros Hc E. unfold TransformerBlock_call in E.
  rewrite RMSNorm_call3 in E. cbn [mbind result_bind Py.bind] in E.
  apply bind_ok_inv in E as ([r [k v]] & Ha & E).
  apply Attention_call_inv in Ha as (B' & L' & Hx & -> & -> & ->).
  injection Hx as <- <-.
  rewrite broadcast_same3 in E. cbn [mbind result_bind Py.bind] in E.
  rewrite RMSNorm_call3 in E. cbn [mbind result_bind Py.bind] in E.
  rewrite FeedForward_call3 in E. cbn [mbind result_bind Py.bind] in E.
  rewrite broadcast_same3 in E. cbn [mbind result_bind Py.bind] in E.
  injection E as <- <-. split; [done|]. unfold cache_shape.
  by destruct Hc as [[-> ->] | ->].
Qed.

(** The loop over the layers on the prompt. *)
Lemma prompt_loop_inv L n : forall acc r,
  foldl (fun acc (_ : unit) =>
           '(x, cache) ← acc;
           '(x, c) ← TransformerBlock_call args x (Some [L; L]) None;
           Ok (x, cache ++ [c]))
        acc (replicate n tt) = Ok r ->
  exists a, acc = Ok a /\
    (a.1 = [B; L; dim args] ->
     r = ([B; L; dim args], a.2 ++ replicate n (cache_shape args B L))).
Proof.
  induction n as [|n IH]; intros acc r; cbn [replicate foldl].
  - intros ->. exists r. split; [done|]. destruct r as [x cache].
    cbn. intros ->. by rewrite app_nil_r.
  - intros Hf. apply IH in Hf as (a1 & Hb & Hr).
    apply bind_ok_inv in Hb as ([x cache] & -> & Hb).
    exists (x, cache). split; [done|]. cbn [fst snd]. intros ->.
    apply bind_ok_inv in Hb as ([out c] & Ht & Hb).
    apply (TransformerBlock_call_inv L 0) in Ht as [-> ->]; [|by left].
    injection Hb as <-. cbn [fst snd] in Hr. rewrite Hr by done.
    change (0 + L) with L. by rewrite <- app_assoc.
Qed.

Lemma generate_prompt_inv L cache y :
  generate_prompt args [B; L] = Ok (cache, y) ->
  cache = replicate (Z.to_nat (n_layers args)) (cache_shape args B L) /\
  y = [B].
Proof.
  unfold generate_prompt. cbn [mbind result_bind Py.bind].
  unfold Embedding. cbn [app]. intros E.
  apply bind_ok_inv in E as ([x c] & Hl & E).
  apply prompt_loop_inv in Hl as (a & [= <-] & Hr). cbn [fst snd] in Hr.
  specialize (Hr eq_refl). injection Hr as -> ->.
  rewrite RMSNorm_call3 in E. cbn [mbind result_bind Py.bind] in E.
  apply bind_ok_inv in E as (x1 & H1 & E). cbn [last_position] in H1.
  destruct (1 <=? L); [|done]. injection H1 as <-.
  rewrite Linear2 in E. cbn [mbind result_bind Py.bind rev app] in E.
  by injection E as <- <-.
Qed.

(** The loop over the layers on one more token: the entries before [i]
    already span one position more. *)
Lemma step_loop_inv Lc m : forall i acc r,
  foldl (fun acc i =>
           '(x, cache) ← acc;
           if (Z.of_nat i <? n_layers args)
           then match cache !! i with
                | Some c =>
                    '(x, c) ← TransformerBlock_call args x None (Some c);
                    Ok (x, <[i := c]> cache)
                | None => Raise IndexError
                end
           else Raise IndexError)
        acc (seq i m) = Ok r ->
  exists a, acc = Ok a /\
    (a = ([B; 1; dim args],
          replicate i (cache_shape args B (Lc + 1))
          ++ replicate m (cache_shape args B Lc)) ->
     r = ([B; 1; dim args],
          replicate (i + m) (cache_shape args B (Lc + 1)))).
Proof.
  induction m as [|m IH]; intros i acc r; cbn [seq foldl replicate].
  - intros ->. exists r. split; [done|]. intros ->.
    by rewrite app_nil_r, Nat.add_0_r.
  - intros Hf. apply IH in Hf as (a1 & Hb & Hr).
    apply bind_ok_inv in Hb as ([x cache] & -> & Hb).
    exists (x, cache). split; [done|]. intros [= -> ->].
    destruct (Z.of_nat i <? n_layers args); [|done].
    rewrite lookup_app_r, length_replicate, Nat.sub_diag in Hb
      by (rewrite length_replicate; lia).
    cbn [lookup list_lookup] in Hb.
    apply bind_ok_inv in Hb as ([out c] & Ht & Hb).
    apply (TransformerBlock_call_inv 1 Lc) in Ht as [-> ->]; [|by right].
    injection Hb as <-.
    replace (i + S m)%nat with (S i + m)%nat by lia. apply Hr.
    f_equal.
    rewrite insert_app_r_alt, length_replicate, Nat.sub_diag
      by (rewrite length_replicate; lia).
    cbn [list_insert insert]. by rewrite replicate_S_end, <- app_assoc.
Qed.

Lemma generate_step_inv Lc cache' y' :
  generate_step args
    (replicate (Z.to_nat (n_layers args)) (cache_shape args B Lc)) [B]
  = Ok (cache', y') ->
  cache' = replicate (Z.to_nat (n_layers args)) (cache_shape args B (Lc + 1))
  /\ y' = [B].
Proof.
  unfold generate_step.
  cbn [add_axis1 mbind result_bind Py.bind]. unfold Embedding. cbn [app].
  rewrite length_replicate. intros E.
  apply bind_ok_inv in E as ([x c] & Hl & E).
  apply (step_loop_inv Lc) in Hl as (a & [= <-] & Hr).
  specialize (Hr eq_refl). cbn [Nat.add] in Hr. injection Hr as -> ->.
  rewrite RMSNorm_call3 in E. cbn [mbind result_bind Py.bind] in E.
  cbn [last_position] in E. change (1 <=? 1) with true in E.
  cbn [mbind result_bind Py.bind] in E.
  rewrite Linear2 in E. cbn [mbind result_bind Py.bind rev app] in E.
  by injection E as <- <-.
Qed.

Lemma generate_steps_inv k : forall Lc cache' y',
  generate_steps args k
    (replicate (Z.to_nat (n_layers args)) (cache_shape args B Lc)) [B]
  = Ok (cache', y') ->
  cache' = replicate (Z.to_nat (n_layers args))
             (cache_shape args B (Lc + Z.of_nat k)) /\
  y' = [B].
Proof.
  induction k as [|k IH]; intros Lc cache' y'; cbn [generate_steps].
  - intros [= <- <-]. by rewrite Z.add_0_r.
  - intros E. apply bind_ok_inv in E as ([c1 y1] & H1 & E).
    apply generate_step_inv in H1 as [-> ->].
    apply IH in E as [-> ->]. split; [|done]. do 2 f_equal; lia.
Qed.

End CacheGrowth.

(** C8. Cache growth, on shapes: when [Llama.generate] gets through a
    prompt of [L] tokens, the cache holds for every layer keys and values
    of sequence length (axis 2) [L]; whenever [k] turns of its loop go
    through after that, every layer's keys and values have sequence length
    [L + k], one position more per turn, the same in all layers. *)
Theorem cache_growth args B L cache y :
  Shapes.generate_prompt args [B; L] = Ok (cache, y) ->
  let n := Z.to_nat (n_layers args) in
  cache = replicate n (ShapesSpec.cache_shape args B L) /\
  forall k cache' y',
    Shapes.generate_steps args k cache y = Ok (cache', y') ->
    cache' = replicate n (ShapesSpec.cache_shape args B (L + Z.of_nat k)).
Proof.
  intros E n. apply generate_prompt_inv in E as [-> ->].
  split; [done|]. intros k cache' y' Hk.
  by apply generate_steps_inv in Hk as [-> _].
Qed.

Lemma cache_growth_witness :
  Shapes.generate_prompt ShapesExample.args [1; 3]
  = Ok (replicate 2 (ShapesSpec.cache_shape ShapesExample.args 1 3), [1]) /\
  Shapes.generate_steps ShapesExample.args 5
    (replicate 2 (ShapesSpec.cache_shape ShapesExample.args 1 3)) [1]
  = Ok (replicate 2 (ShapesSpec.cache_shape ShapesExample.args 1 8), [1]).
Proof.
  assert (Hp : Shapes.generate_prompt ShapesExample.args [1; 3]
    = Ok (replicate 2 (ShapesSpec.cache_shape ShapesExample.args 1 3), [1]))
    by (vm_compute; reflexivity).
  assert (Hs : exists r, Shapes.generate_steps ShapesExample.args 5
    (replicate 2 (ShapesSpec.cache_shape ShapesExample.args 1 3)) [1] = Ok r)
    by (vm_compute; eexists; reflexivity).
  destruct Hs as [[cache' y'] Hs].
  destruct (cache_growth ShapesExample.args 1 3 _ _ Hp) as [_ Hk].
  pose proof (Hk 5%nat cache' y' Hs) as Hc. subst cache'.
  pose proof Hs as Hy. vm_compute in Hy. injection Hy as <-.
  split; [exact Hp|exact Hs].
Defined.
(** ** Cache equivalence: one row of attention *)

Section AttendRow.

Context {F : Type} `{Backend F}.
Context {exact : Causal.ExactBackend H}.
Import Forward Causal.

Local Abbreviation vector := (@vector F).
Local Abbreviation matrix := (@matrix F).

(** [map] of the standard library is stdpp's [fmap] on lists. *)
Lemma map_fmap {A B} (f : A -> B) (l : list A) : map f l = f <$> l.
Proof. reflexivity. Qed.

Lemma foldl_add_zero_products n (v : vector) a :
  foldl mx_add a (zip_with mx_multiply (replicate n mx_zero) v) = a.
Proof.
  revert v a. induction n as [|n IH]; intros [|y v] a; cbn; try done.
  rewrite multiply_zero_l, add_zero_r. apply IH.
Qed.

Lemma foldl_zero_tail (w : vector) n (v : vector) a :
  foldl mx_add a (zip_with mx_multiply (w ++ replicate n mx_zero) v)
  = foldl mx_add a (zip_with mx_multiply w v).
Proof.
  revert v a. induction w as [|x w IH]; intros v a.
  - cbn [app]. rewrite foldl_add_zero_products. by destruct v.
  - destruct v as [|y v]; [done|]. cbn. apply IH.
Qed.

(** Weights that are zero from some position on ignore what they
    multiply. *)
Lemma dot_zero_tail (w : vector) n (v : vector) :
  dot (w ++ replicate n mx_zero) v = dot w v.
Proof. apply foldl_zero_tail. Qed.

Lemma zip_with_take_length {A B C} (f : A -> B -> C) (l : list A) (k : list B) :
  zip_with f l (take (length l) k) = zip_with f l k.
Proof.
  revert k. induction l as [|x l IH]; intros [|y k]; cbn; try done.
  by rewrite IH.
Qed.

Lemma dot_take (w v : vector) : dot w (take (length w) v) = dot w v.
Proof. unfold dot. by rewrite zip_with_take_length. Qed.

Lemma column_take c n (b : matrix) : column c (take n b) = take n (column c b).
Proof. unfold column. by rewrite !map_fmap, fmap_take. Qed.

Lemma width_take n (b : matrix) : width (take (S n) b) = width b.
Proof. by destruct b. Qed.

Lemma length_softmax_row (s : vector) : length (softmax_row s) = length s.
Proof. unfold softmax_row. by rewrite !length_map, softmax_length, length_map. Qed.

Lemma map_const {A B} (f : A -> B) (c : B) (l : list A) :
  (forall x, x ∈ l -> f x = c) -> map f l = replicate (length l) c.
Proof.
  induction l as [|x l IH]; intros Hf; cbn; [done|].
  rewrite Hf, IH; [done| |]; intros; try apply Hf; set_solver.
Qed.

Lemma causal_mask_lookup N i :
  (i < N)%nat -> causal_mask N !! i = Some (mask_row N i).
Proof.
  intros Hi. unfold causal_mask, create_additive_causal_mask, mask_row.
  list_types. rewrite !map_fmap, !list_lookup_fmap, lookup_seq_lt by done.
  cbn [fmap option_map option_fmap]. f_equal.
  rewrite List.map_map.
  replace N with (S i + (N - S i))%nat at 1 by lia.
  rewrite seq_app, map_app. f_equal.
  - rewrite (map_const _ mx_zero), length_seq; [done|].
    intros j Hj%elem_of_seq.
    destruct (Nat.ltb_spec (0 + i) j); [lia|]. apply astype_dtype_zero.
  - rewrite (map_const _ (astype_dtype mask_value)), length_seq; [done|].
    intros j Hj%elem_of_seq.
    destruct (Nat.ltb_spec (0 + i) j); [done|lia].
Qed.

Lemma zip_with_add_zeros (l : vector) n :
  (length l <= n)%nat -> zip_with mx_add l (replicate n mx_zero) = l.
Proof.
  revert n. induction l as [|x l IH]; intros [|n] Hn; cbn in *;
    try done; try lia.
  rewrite add_zero_r, IH by lia. done.
Qed.

Lemma zip_with_add_const (l : vector) m :
  zip_with mx_add l (replicate (length l) m) = map (fun s => mx_add s m) l.
Proof. induction l as [|x l IH]; cbn; [done|]. by rewrite IH. Qed.

(** Adding row [i] of the mask keeps the first [i + 1] scores and masks the
    others. *)
Lemma add_mask_row N i (raw : vector) :
  length raw = N -> (i < N)%nat ->
  zip_with mx_add raw (mask_row N i)
  = take (S i) raw
    ++ map (fun s => mx_add s (astype_dtype mask_value)) (drop (S i) raw).
Proof.
  intros Hlen Hi. unfold mask_row.
  rewrite <- (take_drop (S i) raw) at 1.
  rewrite zip_with_app by (rewrite length_take, length_replicate; lia).
  f_equal.
  - apply zip_with_add_zeros. rewrite length_take. lia.
  - assert (length (drop (S i) raw) = N - S i)%nat as <-
      by (rewrite length_drop; lia).
    apply zip_with_add_const.
Qed.

(** A row of attention under the causal mask is the unmasked row over the
    keys and values up to its own position. *)
Lemma attend_row_causal scale N i (q : vector) (ks vs : matrix) :
  length ks = N -> length vs = N -> (i < N)%nat ->
  attend_row scale (Some (mask_row N i)) q ks vs
  = attend_row scale None q (take (S i) ks) (take (S i) vs).
Proof.
  intros Hk Hv Hi. unfold attend_row. cbv zeta.
  rewrite add_mask_row by (rewrite ?length_map; done).
  rewrite !map_fmap, <- fmap_take, <- fmap_drop, <- !map_fmap.
  set (raw := map _ (take (S i) ks)).
  rewrite softmax_masked.
  2:{ subst raw. destruct ks; [cbn in *; lia|done]. }
  rewrite width_take. apply map_ext. intros c.
  rewrite (map_const _ mx_zero _ (fun _ _ => eq_refl)), dot_zero_tail.
  rewrite column_take, <- (dot_take _ (column c vs)).
  f_equal. f_equal.
  rewrite length_softmax_row. subst raw.
  rewrite length_map, length_take. lia.
Qed.

End AttendRow.
(** ** Cache equivalence: one head, all heads *)

Section AttendHead.

Context {F : Type} `{Backend F}.
Context {exact : Causal.ExactBackend H}.
Import Forward Causal.

Local Abbreviation vector := (@vector F).
Local Abbreviation matrix := (@matrix F).
Local Abbreviation tensor3 := (@tensor3 F).

Lemma head_attention_masked scale (m q k v : matrix) :
  head_attention scale (Some m) q k v
  = zip_with (fun qr mr => attend_row scale (Some mr) qr k v) q m.
Proof.
  unfold head_attention, matmul2, matmul2_nt, attend_row. cbv zeta.
  revert m. induction q as [|qr q IH]; intros [|mr m]; cbn; try done.
  by rewrite IH.
Qed.

Lemma head_attention_unmasked scale (q k v : matrix) :
  head_attention scale None q k v
  = map (fun qr => attend_row scale None qr k v) q.
Proof.
  unfold head_attention, matmul2, matmul2_nt, attend_row. cbv zeta.
  by rewrite !List.map_map.
Qed.

(** Under the causal mask a head computes [causal_head]. *)
Lemma head_attention_causal scale N (q k v : matrix) :
  length k = N -> length v = N -> (length q <= N)%nat ->
  head_attention scale (Some (causal_mask N)) q k v = causal_head scale q k v.
Proof.
  intros Hk Hv Hq. rewrite head_attention_masked. unfold causal_head.
  apply list_eq. intros i.
  rewrite lookup_zip_with, list_lookup_imap. list_types.
  destruct (q !! i) as [qr|] eqn:Eq; cbn; [|done].
  apply lookup_lt_Some in Eq.
  pose proof (causal_mask_lookup N i ltac:(lia)) as Em. list_types.
  rewrite Em. cbn. f_equal. apply attend_row_causal; (done || lia).
Qed.

Lemma causal_head_snoc scale (qs ks vs : matrix) q' k' v' :
  length qs = length ks -> length ks = length vs ->
  causal_head scale (qs ++ [q']) (ks ++ [k']) (vs ++ [v'])
  = causal_head scale qs ks vs
    ++ [attend_row scale None q' (ks ++ [k']) (vs ++ [v'])].
Proof.
  intros Hq Hk. unfold causal_head. rewrite imap_app. f_equal.
  - apply imap_ext. intros i qr Hi. apply lookup_lt_Some in Hi.
    by rewrite !take_app_le by lia.
  - cbn. rewrite Nat.add_0_r, !take_ge by (rewrite length_app; cbn; lia).
    done.
Qed.

End AttendHead.

Section AttendHeads.

Context {F : Type} `{Backend F}.
Context {exact : Causal.ExactBackend H}.
Import Forward Causal.

Local Abbreviation vector := (@vector F).
Local Abbreviation matrix := (@matrix F).
Local Abbreviation tensor3 := (@tensor3 F).
Local Abbreviation Attention := (@Attention F).

(** The scores, the mask, the softmax and the weighted sum of
    [Attention.__call__] are [head_attention] on every head. *)
Lemma attention_core scale mask (q k v : tensor3) :
  matmul
    (map (map softmax_row)
       (match mask with
        | Some mask =>
            map (fun s => zip_with (zip_with mx_add) s mask)
              (matmul_nt
                 (map (map (map (fun x => mx_multiply x (of_float scale)))) q)
                 k)
        | None =>
            matmul_nt
              (map (map (map (fun x => mx_multiply x (of_float scale)))) q) k
        end))
    v
  = heads_attention scale mask q k v.
Proof.
  unfold heads_attention, head_attention, matmul, matmul_nt. cbv zeta.
  revert k v.
  induction q as [|qh q IH]; intros [|kh k] [|vh v]; destruct mask;
    cbn; try done; by rewrite <- IH.
Qed.

Lemma Attention_call_eq (self : Attention) (x : matrix) mask cache :
  Attention_call self x mask cache =
  let q0 := split_heads (Z.to_nat (n_heads self)) (map (wq self) x) in
  let k0 := repeat self (length x) (split_heads (Z.to_nat (n_kv_heads self))
                         (map (wk self) x)) in
  let v0 := repeat self (length x) (split_heads (Z.to_nat (n_kv_heads self))
                         (map (wv self) x)) in
  let offset := match cache with
                | Some (key_cache, _) => shape2 key_cache
                | None => O
                end in
  let q := RoPE_call (rope self) q0 offset in
  let k := match cache with
           | Some (key_cache, _) =>
               concatenate_axis2 key_cache (RoPE_call (rope self) k0 offset)
           | None => RoPE_call (rope self) k0 offset
           end in
  let v := match cache with
           | Some (_, value_cache) => concatenate_axis2 value_cache v0
           | None => v0
           end in
  (map (wo self)
     (merge_heads (length x) (heads_attention (scale self) mask q k v)),
   (k, v)).
Proof.
  unfold Attention_call. cbv zeta.
  destruct cache as [[key_cache value_cache]|]; cbv beta iota;
    by rewrite attention_core.
Qed.

End AttendHeads.
(** ** Cache equivalence: [Attention] on a sequence and on its last row *)

Section AttentionSnoc.

Context {F : Type} `{Backend F}.
Context {exact : Causal.ExactBackend H}.
Import Forward Causal.

Local Abbreviation vector := (@vector F).
Local Abbreviation matrix := (@matrix F).
Local Abbreviation tensor3 := (@tensor3 F).
Local Abbreviation Attention := (@Attention F).

Lemma zip_with_map_diag {A B C D} (f : B -> C -> D) (g : A -> B) (g' : A -> C)
    (l : list A) :
  zip_with f (map g l) (map g' l) = map (fun x => f (g x) (g' x)) l.
Proof. induction l as [|x l IH]; cbn; [done|]. by rewrite IH. Qed.

Lemma split_heads_app n (a b : matrix) :
  split_heads n (a ++ b)
  = zip_with app (split_heads n a) (split_heads n b).
Proof.
  unfold split_heads. rewrite zip_with_map_diag.
  apply map_ext. intros h. by rewrite map_app.
Qed.

Lemma length_split_heads n (a : matrix) : length (split_heads n a) = n.
Proof. unfold split_heads. by rewrite length_map, length_seq. Qed.

Lemma spans_split_heads n (a : matrix) : spans (length a) (split_heads n a).
Proof.
  unfold spans, split_heads. apply Forall_forall. intros head Hin.
  apply list_elem_of_In, in_map_iff in Hin as (h & <- & _).
  by rewrite length_map.
Qed.

Lemma repeat_zip_app (self : Attention) (a b : tensor3) :
  length a = length b ->
  repeat_heads self (zip_with app a b)
  = zip_with app (repeat_heads self a) (repeat_heads self b).
Proof.
  unfold repeat_heads. revert b.
  induction a as [|x a IH]; intros [|y b] Hlen; cbn in *; try done.
  rewrite IH by lia.
  rewrite zip_with_app by (by rewrite !length_replicate).
  by rewrite zip_with_replicate.
Qed.

Lemma length_repeat (self : Attention) (a : tensor3) :
  length (repeat_heads self a) = (Z.to_nat (repeats self) * length a)%nat.
Proof.
  unfold repeat_heads. induction a as [|x a IH]; cbn; [lia|].
  rewrite length_app, length_replicate, IH. lia.
Qed.

Lemma spans_repeat (self : Attention) L (a : tensor3) :
  spans L a -> spans L (repeat_heads self a).
Proof.
  unfold spans, repeat_heads. induction 1 as [|x a Hx Ha IH]; cbn; [done|].
  apply Forall_app. split; [|done]. by apply Forall_replicate.
Qed.

(** On a well-formed module the reshape of the inner [repeat] merges the
    axes of the key/value heads and of their copies. *)
Lemma repeat_heads_eq (self : Attention) L (a : tensor3) :
  well_formed self ->
  length a = Z.to_nat (n_kv_heads self) ->
  repeat self L a = repeat_heads self a.
Proof.
  intros (Hkv & Hr & Hh) Hlen. unfold repeat, reshape_heads.
  rewrite length_repeat, Hlen.
  replace (Z.to_nat (repeats self) * Z.to_nat (n_kv_heads self))%nat
    with (Z.to_nat (n_heads self)) by nia.
  by rewrite Nat.eqb_refl.
Qed.

Lemma length_RoPE_call rope (a : tensor3) offset :
  length (RoPE_call rope a offset) = length a.
Proof. unfold RoPE_call. by rewrite length_map. Qed.

Lemma spans_RoPE_call rope L (a : tensor3) offset :
  spans L a -> spans L (RoPE_call rope a offset).
Proof.
  unfold spans, RoPE_call. induction 1 as [|x a Hx Ha IH]; cbn; [done|].
  constructor; [|done]. by rewrite length_imap.
Qed.

(** The rotation of a longer sequence: its last rows sit after the
    first [L]. *)
Lemma RoPE_call_zip_app rope L (a b : tensor3) :
  spans L a ->
  RoPE_call rope (zip_with app a b) 0
  = zip_with app (RoPE_call rope a 0) (RoPE_call rope b L).
Proof.
  unfold RoPE_call. intros Ha. revert b.
  induction Ha as [|x a Hx Ha IH]; intros [|y b]; cbn; try done.
  rewrite IH, imap_app. do 2 f_equal.
  apply imap_ext. intros i row _. do 2 f_equal. exact Hx.
Qed.

Lemma shape2_spans L (a : tensor3) : spans L a -> a <> [] -> shape2 a = L.
Proof. intros Ha Hne. destruct Ha; [done|]. done. Qed.

Lemma singleton_of_length {A} (l : list A) :
  length l = 1%nat -> exists x, l = [x].
Proof. destruct l as [|x [|y l]]; try done. by exists x. Qed.

(** All the heads at once: the attention over [L + 1] positions under the
    causal mask is the attention over the first [L] positions under the
    causal mask, followed by the unmasked attention of the last row. *)
Lemma heads_attention_snoc scale L (qp q1 kp k1 vp v1 : tensor3) :
  spans L qp -> spans 1 q1 -> length qp = length q1 ->
  spans L kp -> spans 1 k1 -> length kp = length k1 ->
  spans L vp -> spans 1 v1 -> length vp = length v1 ->
  heads_attention scale (Some (causal_mask (S L)))
    (zip_with app qp q1) (zip_with app kp k1) (zip_with app vp v1)
  = zip_with app
      (heads_attention scale (Some (causal_mask L)) qp kp vp)
      (heads_attention scale None q1
         (zip_with app kp k1) (zip_with app vp v1)).
Proof.
  unfold heads_attention.
  intros Hqp. revert q1 kp k1 vp v1.
  induction Hqp as [|q qp Hq Hqp IH];
    intros [|q' q1] kp k1 vp v1 Hq1 Hlq Hkp Hk1 Hlk Hvp Hv1 Hlv;
    cbn in Hlq; try done.
  destruct Hkp as [|k kp Hk Hkp], k1 as [|k' k1]; cbn in Hlk; try done.
  destruct Hvp as [|v vp Hv Hvp], v1 as [|v' v1]; cbn in Hlv; try done.
  apply Forall_cons in Hq1 as [Hq' Hq1].
  apply Forall_cons in Hk1 as [Hk' Hk1].
  apply Forall_cons in Hv1 as [Hv' Hv1].
  cbn [zip_with zip fst snd]. f_equal.
  - apply singleton_of_length in Hq' as [qr ->].
    apply singleton_of_length in Hk' as [kr ->].
    apply singleton_of_length in Hv' as [vr ->].
    rewrite (head_attention_causal scale (S L))
      by (rewrite length_app; cbn; list_types; lia).
    rewrite (head_attention_causal scale L) by (list_types; lia).
    rewrite causal_head_snoc by (list_types; lia).
    by rewrite head_attention_unmasked.
  - apply IH; (done || lia).
Qed.

Lemma merge_heads_snoc L (a b : tensor3) :
  spans L a -> spans 1 b -> length a = length b ->
  merge_heads (S L) (zip_with app a b) = merge_heads L a ++ merge_heads 1 b.
Proof.
  intros Ha Hb Hlen. unfold merge_heads.
  replace (S L) with (L + 1)%nat by lia. rewrite seq_app, map_app.
  f_equal.
  - apply map_ext_in. intros i Hi%in_seq. f_equal.
    clear Hb. revert b Hlen.
    induction Ha as [|x a Hx Ha IH]; intros [|y b] Hlen; cbn in *; try done.
    rewrite IH by lia. f_equal. apply app_nth1. list_types. lia.
  - cbn. f_equal. f_equal. revert b Hb Hlen.
    induction Ha as [|x a Hx Ha IH]; intros [|y b] Hb Hlen; cbn in *;
      try done.
    apply Forall_cons in Hb as [Hy Hb].
    rewrite IH by (done || lia). f_equal.
    rewrite app_nth2 by (list_types; lia).
    f_equal. list_types. lia.
Qed.

Lemma spans_heads_attention scale mask L (q k v : tensor3) :
  spans L q ->
  (match mask with Some m => (L <= length m)%nat | None => True end) ->
  spans L (heads_attention scale mask q k v).
Proof.
  unfold heads_attention. intros Hq Hm. revert k v.
  induction Hq as [|x q Hx Hq IH]; intros [|y k] [|z v];
    cbn [zip_with zip fst snd]; try apply Forall_nil_2.
  constructor; [|apply IH].
  destruct mask as [m|].
  - pose proof (head_attention_masked scale m x y z) as E. list_types.
    rewrite E, length_zip_with. lia.
  - pose proof (head_attention_unmasked scale x y z) as E. list_types.
    by rewrite E, length_map.
Qed.

Lemma length_heads_attention scale mask (q k v : tensor3) :
  length q = length k -> length k = length v ->
  length (heads_attention scale mask q k v) = length q.
Proof.
  unfold heads_attention. intros Hk Hv.
  rewrite length_zip_with, length_zip. list_types. lia.
Qed.

Lemma length_causal_mask N : length (causal_mask N) = N.
Proof.
  unfold causal_mask, create_additive_causal_mask.
  by rewrite !length_map, length_seq.
Qed.

(** [Attention] on [L + 1] rows without a cache is [Attention] on the
    first [L] rows, followed by [Attention] on the last row with the cache
    the first [L] rows return; the keys and values agree. *)
Lemma Attention_call_snoc (self : Attention) (xs : matrix) (x' : vector) :
  well_formed self ->
  let L := length xs in
  let pre := Attention_call self xs (Some (causal_mask L)) None in
  let dec := Attention_call self [x'] None (Some pre.2) in
  Attention_call self (xs ++ [x']) (Some (causal_mask (S L))) None
  = (pre.1 ++ dec.1, dec.2).
Proof.
  intros Hwf L pre dec. subst pre dec.
  rewrite !Attention_call_eq. cbv zeta. cbn [fst snd].
  rewrite !(repeat_heads_eq self _ _ Hwf) by apply length_split_heads.
  destruct Hwf as (Hkv & Hr & Hh).
  rewrite !map_app, !split_heads_app.
  rewrite !repeat_zip_app by (by rewrite !length_split_heads).
  set (nh := Z.to_nat (n_heads self)).
  set (nkv := Z.to_nat (n_kv_heads self)).
  set (qp := split_heads nh (map (wq self) xs)).
  set (q1 := split_heads nh (map (wq self) [x'])).
  set (kp := repeat_heads self (split_heads nkv (map (wk self) xs))).
  set (k1 := repeat_heads self (split_heads nkv (map (wk self) [x']))).
  set (vp := repeat_heads self (split_heads nkv (map (wv self) xs))).
  set (v1 := repeat_heads self (split_heads nkv (map (wv self) [x']))).
  assert (Hnh : nh = (Z.to_nat (repeats self) * nkv)%nat) by (subst nh nkv; nia).
  assert (Hqp : spans L qp).
  { subst qp L. rewrite <- (length_map (wq self) xs). apply spans_split_heads. }
  assert (Hq1 : spans 1 q1) by apply (spans_split_heads nh (map (wq self) [x'])).
  assert (Hkp : spans L kp).
  { subst kp L. apply spans_repeat.
    rewrite <- (length_map (wk self) xs). apply spans_split_heads. }
  assert (Hk1 : spans 1 k1).
  { apply spans_repeat. apply (spans_split_heads nkv (map (wk self) [x'])). }
  assert (Hvp : spans L vp).
  { subst vp L. apply spans_repeat.
    rewrite <- (length_map (wv self) xs). apply spans_split_heads. }
  assert (Hv1 : spans 1 v1).
  { apply spans_repeat. apply (spans_split_heads nkv (map (wv self) [x'])). }
  assert (Lqp : length qp = nh) by apply length_split_heads.
  assert (Lq1 : length q1 = nh) by apply length_split_heads.
  assert (Lkp : length kp = nh).
  { subst kp. by rewrite length_repeat, length_split_heads. }
  assert (Lk1 : length k1 = nh).
  { subst k1. by rewrite length_repeat, length_split_heads. }
  assert (Lvp : length vp = nh).
  { subst vp. by rewrite length_repeat, length_split_heads. }
  assert (Lv1 : length v1 = nh).
  { subst v1. by rewrite length_repeat, length_split_heads. }
  assert (Hoff : shape2 (RoPE_call (rope self) kp 0) = L).
  { apply shape2_spans; [by apply spans_RoPE_call|].
    intros E. apply (f_equal length) in E.
    rewrite length_RoPE_call, Lkp in E. cbn in E. subst nh nkv. nia. }
  rewrite Hoff.
  rewrite !(RoPE_call_zip_app (rope self) L) by done.
  unfold concatenate_axis2.
  rewrite length_app. cbn [length]. rewrite Nat.add_1_r. fold L.
  rewrite (heads_attention_snoc (scale self) L);
    try (by apply spans_RoPE_call); try done;
    try (rewrite !length_RoPE_call; list_types; lia);
    try (list_types; lia).
  set (kfull := zip_with app (RoPE_call (rope self) kp 0)
                              (RoPE_call (rope self) k1 L)).
  set (vfull := zip_with app vp v1).
  rewrite merge_heads_snoc.
  - by rewrite map_app.
  - apply spans_heads_attention; [by apply spans_RoPE_call|].
    by rewrite length_causal_mask.
  - apply spans_heads_attention; [by apply spans_RoPE_call|done].
  - assert (Lkf : length kfull = nh).
    { subst kfull. rewrite length_zip_with, !length_RoPE_call.
      list_types. lia. }
    assert (Lvf : length vfull = nh).
    { subst vfull. rewrite length_zip_with. list_types. lia. }
    rewrite !length_heads_attention;
      rewrite ?length_RoPE_call; list_types; lia.
Qed.

End AttentionSnoc.
(** ** Cache equivalence: blocks, layers, the model *)

Section BlockSnoc.

Context {F : Type} `{Backend F}.
Context {exact : Causal.ExactBackend H}.
Import Forward Layers Causal.

Local Abbreviation vector := (@vector F).
Local Abbreviation matrix := (@matrix F).
Local Abbreviation tensor3 := (@tensor3 F).
Local Abbreviation KVCacheEntry := (@KVCacheEntry F).
Local Abbreviation TransformerBlock := (@TransformerBlock F).
Local Abbreviation Llama := (@Llama F).

Lemma TransformerBlock_call_snoc (self : TransformerBlock) (xs : matrix)
    (x' : vector) :
  well_formed (attention self) ->
  let L := length xs in
  let pre := TransformerBlock_call self xs (Some (causal_mask L)) None in
  let dec := TransformerBlock_call self [x'] None (Some pre.2) in
  TransformerBlock_call self (xs ++ [x']) (Some (causal_mask (S L))) None
  = (pre.1 ++ dec.1, dec.2).
Proof.
  intros Hwf L pre dec. subst pre dec. unfold TransformerBlock_call.
  rewrite map_app. cbn [map].
  pose proof (Attention_call_snoc (attention self)
                (map (RMSNorm_call (attention_norm self)) xs)
                (RMSNorm_call (attention_norm self) x') Hwf) as E.
  cbv zeta in E. rewrite length_map in E. fold L in E. rewrite E. clear E.
  pose proof (length_Attention_call (attention self)
                (map (RMSNorm_call (attention_norm self)) xs)
                (Some (causal_mask L)) None) as Hlen.
  rewrite length_map in Hlen.
  destruct (Attention_call (attention self)
              (map (RMSNorm_call (attention_norm self)) xs)
              (Some (causal_mask L)) None) as [rp cp].
  cbn [fst snd] in *.
  destruct (Attention_call (attention self)
              [RMSNorm_call (attention_norm self) x'] None (Some cp))
    as [rd cd].
  cbn [fst snd].
  rewrite zip_with_app by (list_types; lia).
  rewrite map_app.
  rewrite zip_with_app
    by (rewrite length_map, length_zip_with; list_types; lia).
  done.
Qed.

Lemma prompt_layers_snoc (ls : list TransformerBlock) : forall (xs : matrix)
    (x' : vector),
  Forall (fun l => well_formed (attention l)) ls ->
  let L := length xs in
  let pre := prompt_layers ls (causal_mask L) xs in
  let dec := step_layers ls pre.2 [x'] in
  prompt_layers ls (causal_mask (S L)) (xs ++ [x']) = (pre.1 ++ dec.1, dec.2).
Proof.
  induction ls as [|l ls IH]; intros xs x' Hwf L pre dec; subst pre dec.
  - done.
  - apply Forall_cons in Hwf as [Hl Hls].
    cbn [prompt_layers step_layers].
    pose proof (TransformerBlock_call_snoc l xs x' Hl) as E.
    cbv zeta in E. fold L in E. rewrite E. clear E.
    pose proof (length_TransformerBlock_call l xs (Some (causal_mask L)) None)
      as Hlen.
    destruct (TransformerBlock_call l xs (Some (causal_mask L)) None)
      as [xp cp].
    cbn [fst snd] in *.
    pose proof (length_TransformerBlock_call l [x'] None (Some cp)) as Hlen1.
    destruct (TransformerBlock_call l [x'] None (Some cp)) as [xd cd] eqn:Ed.
    cbn [fst snd length] in *.
    destruct (singleton_of_length xd Hlen1) as [x'' ->].
    specialize (IH xp x'' Hls). cbv zeta in IH.
    replace (length xp) with L in IH by (list_types; lia).
    rewrite IH.
    destruct (prompt_layers ls (causal_mask L) xp) as [xp' cache].
    cbn [fst snd step_layers]. rewrite Ed.
    by destruct (step_layers ls cache [x'']) as [xd' cache'].
Qed.

Lemma foldl_fst_prompt_layers (ls : list TransformerBlock) mask (x : matrix) :
  foldl (fun x l => fst (TransformerBlock_call l x (Some mask) None)) x ls
  = (prompt_layers ls mask x).1.
Proof.
  revert x. induction ls as [|l ls IH]; intros x; cbn [foldl prompt_layers];
    [done|].
  rewrite IH.
  destruct (TransformerBlock_call l x (Some mask) None) as [x' c].
  cbn [fst]. by destruct (prompt_layers ls mask x').
Qed.

(** The loop of [Llama.__call__] is [prompt_layers], its caches dropped. *)
Lemma Llama_call_eq (self : Llama) (x : list token) :
  Llama_call self x
  = map (output self)
      (map (RMSNorm_call (norm self))
         (prompt_layers (layers self) (causal_mask (length x))
            (map (tok_embeddings self) x)).1).
Proof. unfold Llama_call. cbv zeta. by rewrite foldl_fst_prompt_layers. Qed.

Lemma length_Llama_call (self : Llama) (x : list token) :
  length (Llama_call self x) = length x.
Proof.
  rewrite Llama_call_eq, !length_map.
  destruct (prompt_layers_length (layers self) (causal_mask (length x))
              (map (tok_embeddings self) x)) as [E _].
  list_types. rewrite E. apply length_map.
Qed.

(** [Llama.generate] up to its first logits, through [Llama.__call__]. *)
Lemma generate_prompt_via_call (self : Llama) (x : list token) :
  generate_prompt self x =
  row ← last_row (Llama_call self x);
  Ok ((prompt_layers (layers self) (causal_mask (length x))
         (map (tok_embeddings self) x)).2, row).
Proof.
  rewrite generate_prompt_eq, Llama_call_eq. cbv zeta.
  fold (causal_mask (length x)).
  set (r := prompt_layers _ _ _). unfold last_row.
  rewrite !map_fmap, !fmap_last.
  by destruct (last r.1) as [row|].
Qed.

(** One more token at the end adds one row of logits and changes none. *)
Lemma Llama_call_snoc (self : Llama) (xs : list token) (t : token) :
  Forall (fun l => well_formed (attention l)) (layers self) ->
  exists logits, Llama_call self (xs ++ [t]) = Llama_call self xs ++ [logits].
Proof.
  intros Hwf. rewrite !Llama_call_eq, map_app, length_app. cbn [length map].
  rewrite Nat.add_1_r.
  pose proof (prompt_layers_snoc (layers self) (map (tok_embeddings self) xs)
                (tok_embeddings self t) Hwf) as E.
  cbv zeta in E. rewrite length_map in E. rewrite E. clear E.
  set (pre := prompt_layers (layers self) (causal_mask (length xs)) _).
  destruct (step_layers_length (layers self) pre.2
              [tok_embeddings self t]) as [E1 _].
  { apply (prompt_layers_length (layers self) (causal_mask (length xs))
             (map (tok_embeddings self) xs)). }
  cbn [length] in E1.
  destruct (singleton_of_length _ E1) as [d Hd].
  cbn [fst]. rewrite Hd, !map_app. cbn [map]. by eexists.
Qed.

(** The logits of a prefix are a prefix of the logits. *)
Lemma Llama_call_app (self : Llama) (xs ys : list token) :
  Forall (fun l => well_formed (attention l)) (layers self) ->
  take (length xs) (Llama_call self (xs ++ ys)) = Llama_call self xs.
Proof.
  intros Hwf. induction ys as [|y ys IH] using rev_ind.
  - rewrite app_nil_r. apply take_ge. by rewrite length_Llama_call.
  - rewrite app_assoc.
    destruct (Llama_call_snoc self (xs ++ ys) y Hwf) as [logits ->].
    rewrite take_app_le; [exact IH|].
    rewrite length_Llama_call, length_app. lia.
Qed.

(** A turn of the loop of [Llama.generate] on the caches of a prompt does
    what the pass over the prompt does with the token appended. *)
Lemma generate_step_after_prompt (self : Llama) (prompt : list token)
    (t : token) cache logits0 :
  Forall (fun l => well_formed (attention l)) (layers self) ->
  generate_prompt self prompt = Ok (cache, logits0) ->
  generate_step self cache t = generate_prompt self (prompt ++ [t]).
Proof.
  intros Hwf Hp.
  rewrite generate_prompt_eq in Hp. cbv zeta in Hp.
  fold (causal_mask (length prompt)) in Hp.
  apply bind_ok_inv in Hp as (row & _ & Hp). injection Hp as <- _.
  set (pre := prompt_layers (layers self) (causal_mask (length prompt))
                (map (tok_embeddings self) prompt)).
  assert (E2 : length pre.2 = length (layers self)).
  { apply (prompt_layers_length (layers self) (causal_mask (length prompt))
             (map (tok_embeddings self) prompt)). }
  rewrite generate_step_eq by exact E2.
  rewrite generate_prompt_eq. cbv zeta.
  rewrite length_app, map_app. cbn [length map]. rewrite Nat.add_1_r.
  fold (causal_mask (S (length prompt))).
  pose proof (prompt_layers_snoc (layers self)
                (map (tok_embeddings self) prompt)
                (tok_embeddings self t) Hwf) as E.
  cbv zeta in E. rewrite length_map in E. fold pre in E. rewrite E. clear E.
  destruct (step_layers_length (layers self) pre.2
              [tok_embeddings self t] E2) as [E1 _].
  cbn [length] in E1.
  destruct (singleton_of_length _ E1) as [d Hd].
  cbn [fst snd]. rewrite Hd, map_app. cbn [map].
  unfold last_row. by rewrite last_snoc.
Qed.

End BlockSnoc.
(** ** The model with and without the cache *)

Section CacheEquivalence.

Context {F : Type} `{Backend F}.
Context {exact : Causal.ExactBackend H}.
Import Forward Layers Causal Recompute.

Local Abbreviation Llama := (@Llama F).

(** X1. The comment in [Llama.generate] holds ("we process the prompt x the
    same way as in __call__"): the logits the first token is sampled from
    are the last row of the logits of [Llama.__call__] on the prompt, and
    the pass leaves one cache entry per layer. *)
Theorem generate_prompt_last_of_call (self : Llama) (x : list token) cache
    logits :
  generate_prompt self x = Ok (cache, logits) ->
  last (Llama_call self x) = Some logits /\
  length cache = length (layers self).
Proof.
  rewrite generate_prompt_via_call. unfold last_row.
  destruct (last (Llama_call self x)) as [row|]; [|done].
  cbn [mbind result_bind Py.bind]. intros [= <- <-]. split; [done|].
  apply (prompt_layers_length (layers self) (causal_mask (length x))
           (map (tok_embeddings self) x)).
Qed.

(** X2. Cache equivalence in exact arithmetic: after the pass over a prompt of
    [L] tokens, one turn of the decoding loop on a token [t] returns the
    caches and the logits of the pass over the [L + 1] tokens, and these
    logits are the row [L] of [Llama.__call__] on the [L + 1] tokens. *)
Theorem cache_equivalence (self : Llama) (prompt : list token) (t : token)
    cache logits0 :
  Forall (fun l => well_formed (attention l)) (layers self) ->
  generate_prompt self prompt = Ok (cache, logits0) ->
  exists cache' logits,
    generate_step self cache t = Ok (cache', logits) /\
    generate_prompt self (prompt ++ [t]) = Ok (cache', logits) /\
    Llama_call self (prompt ++ [t]) !! length prompt = Some logits.
Proof.
  intros Hwf Hp.
  destruct (generate_prompt_returns self (prompt ++ [t]))
    as (cache' & logits & Hq & _); [by destruct prompt|].
  exists cache', logits. split; [|split; [exact Hq|]].
  - by rewrite (generate_step_after_prompt self prompt t cache logits0 Hwf Hp).
  - rewrite generate_prompt_via_call in Hq.
    apply bind_ok_inv in Hq as (row & Hrow & Hq). injection Hq as _ <-.
    unfold last_row in Hrow.
    destruct (last (Llama_call self (prompt ++ [t]))) as [r|] eqn:El;
      [|done].
    injection Hrow as <-.
    rewrite last_lookup, length_Llama_call, length_app in El.
    cbn [length] in El. by rewrite Nat.add_1_r in El.
Qed.


(** X3. Causality of [Llama.__call__]: the logits of the first [n] positions
    depend on the first [n] tokens only. *)
Theorem Llama_call_causal (self : Llama) (xs ys : list token) (n : nat) :
  Forall (fun l => well_formed (attention l)) (layers self) ->
  take n xs = take n ys ->
  take n (Llama_call self xs) = take n (Llama_call self ys).
Proof.
  intros Hwf E.
  assert (T : forall zs,
            take n (Llama_call self zs) = Llama_call self (take n zs)).
  { intros zs. destruct (decide (n <= length zs)%nat) as [Hle|Hgt].
    - transitivity (take n (Llama_call self (take n zs ++ drop n zs)));
        [by rewrite take_drop|].
      rewrite <- (Llama_call_app self (take n zs) (drop n zs) Hwf).
      rewrite length_take. by rewrite Nat.min_l.
    - rewrite (take_ge zs) by lia. apply take_ge.
      rewrite length_Llama_call. lia. }
  by rewrite !T, E.
Qed.



End CacheEquivalence.

(** *** The small model is exact and well formed *)

Lemma Toy_exact : Causal.ExactBackend Toy.backend.
Proof.
  split.
  - intros [x|]; cbn; [|done]. by rewrite Z.add_0_r.
  - by intros [x|].
  - done.
  - intros l. cbn. unfold Toy.softmax. by rewrite length_map.
  - intros ss tl _. unfold Forward.softmax_row. cbn.
    rewrite !map_id. unfold Toy.softmax. rewrite map_app, map_map.
    f_equal. apply map_ext. by intros [a|].
Qed.

Lemma Toy_well_formed :
  Forall (fun l => Causal.well_formed (Forward.attention l))
         (Forward.layers Toy.llama).
Proof. repeat constructor. Qed.

Lemma generate_prompt_last_of_call_witness :
  exists cache logits,
    Forward.generate_prompt (H := Toy.backend) Toy.llama [1; 5; 9; 2]
    = Ok (cache, logits) /\
    last (Forward.Llama_call (H := Toy.backend) Toy.llama [1; 5; 9; 2])
    = Some logits /\
    length cache = 2%nat.
Proof.
  assert (Hp : exists cl,
    Forward.generate_prompt (H := Toy.backend) Toy.llama [1; 5; 9; 2]
    = Ok cl) by (vm_compute; eexists; reflexivity).
  destruct Hp as [[cache logits] Hp].
  exists cache, logits. split; [exact Hp|].
  exact (generate_prompt_last_of_call Toy.llama [1; 5; 9; 2] cache logits Hp).
Defined.

Lemma cache_equivalence_witness :
  exists cache logits0 cache' logits,
    Forward.generate_prompt (H := Toy.backend) Toy.llama [1; 5; 9]
    = Ok (cache, logits0) /\
    Forward.generate_step (H := Toy.backend) Toy.llama cache 2
    = Ok (cache', logits) /\
    Forward.generate_prompt (H := Toy.backend) Toy.llama [1; 5; 9; 2]
    = Ok (cache', logits) /\
    Forward.Llama_call (H := Toy.backend) Toy.llama [1; 5; 9; 2] !! 3%nat
    = Some logits.
Proof.
  assert (Hp : exists cl,
    Forward.generate_prompt (H := Toy.backend) Toy.llama [1; 5; 9] = Ok cl)
    by (vm_compute; eexists; reflexivity).
  destruct Hp as [[cache logits0] Hp].
  destruct (cache_equivalence (exact := Toy_exact) Toy.llama [1; 5; 9] 2
              cache logits0 Toy_well_formed Hp)
    as (cache' & logits & H1 & H2 & H3).
  exists cache, logits0, cache', logits.
  split; [exact Hp|]. split; [exact H1|]. split; [exact H2|exact H3].
Defined.

Lemma Llama_call_causal_witness :
  take 2 (Forward.Llama_call (H := Toy.backend) Toy.llama [1; 5; 9; 2])
  = take 2 (Forward.Llama_call (H := Toy.backend) Toy.llama [1; 5; 3]).
Proof.
  apply (Llama_call_causal (exact := Toy_exact) Toy.llama [1; 5; 9; 2]
           [1; 5; 3] 2 Toy_well_formed).
  reflexivity.
Defined.


(** ** Grouped-query attention: which key/value head a query head reads *)

Section GroupedQuery.

Context {F : Type} `{Backend F}.
Import Forward.

Local Abbreviation tensor3 := (@tensor3 F).
Local Abbreviation Attention := (@Attention F).

(** X5. Grouped-query attention: on a module with
    [n_heads = n_kv_heads * repeats], the inner [repeat] of
    [Attention.__call__], given the [n_kv_heads] key/value heads, puts at
    head index [h] the key/value head [h // repeats] (consecutive query
    heads share a key/value head), and there is none past [n_heads]. *)
Theorem repeat_lookup (self : Attention) (L : nat) (a : tensor3) (h : nat) :
  Causal.well_formed self ->
  length a = Z.to_nat (n_kv_heads self) ->
  repeat self L a !! h = a !! (h / Z.to_nat (repeats self))%nat.
Proof.
  intros Hwf Hlen. rewrite (repeat_heads_eq self L a Hwf Hlen).
  destruct Hwf as (_ & Hr & _). unfold repeat_heads.
  set (r := Z.to_nat (repeats self)). assert (Hr' : (0 < r)%nat) by lia.
  clearbody r. clear Hlen. revert h.
  induction a as [|head a IH]; intros h; cbn [flat_map]; [done|].
  list_types. destruct (decide (h < r)%nat) as [Hlt|Hge].
  - rewrite lookup_app_l by (by rewrite length_replicate).
    rewrite Nat.div_small by done.
    by rewrite lookup_replicate_2.
  - rewrite lookup_app_r by (rewrite length_replicate; lia).
    rewrite length_replicate, IH.
    replace h with ((h - r) + 1 * r)%nat at 2 by lia.
    rewrite Nat.div_add by lia. by rewrite Nat.add_1_r.
Qed.

End GroupedQuery.

Lemma repeat_lookup_witness :
  Forward.repeat Toy.attention 1 [[[Some 5]]] !! 1%nat = Some [[Some 5]].
Proof.
  apply (repeat_lookup Toy.attention 1 [[[Some 5]]] 1).
  - repeat split.
  - reflexivity.
Defined.
